(** * The OAuth 2.0 device-code client of msal-common

    A shallow embedding of [lib/msal-common/src/client/DeviceCodeClient.ts].
    The client fetches a device code, hands it to the caller's callback and
    then polls the token endpoint from an interval timer until the promise
    it returned is settled.

    JavaScript values are modelled as follows: a property that may be
    [undefined] is an [option]; the numbers of the flow (seconds and
    milliseconds) are integers, and arithmetic on [undefined] gives NaN,
    written [None]; a promise is [Pending], [Fulfilled] or [Rejected]; the
    interval timer, the outstanding POST requests and the logger are
    explicit state. *)

From stdpp Require Import base option list strings gmap sets.
From Stdlib Require Import ZArith Lia.

Local Open Scope Z_scope.

(** ** Collaborators outside the client *)

(** What the client takes from the rest of the library and from the host,
    none of which is defined in [DeviceCodeClient.ts]. *)
Class Library := {
  (** [TimeUtils.nowSeconds()], as a function of the wall clock in
      milliseconds *)
  nowSeconds : Z → Z;
  (** the host's [encodeURIComponent] *)
  encodeURIComponent : string → string;
  (** the scopes a [ScopeSet] is required to carry for a client id and a
      [scopesRequired] flag *)
  defaultScopes : string → bool → list string;
  (** [Constants.DEVICE_CODE_ENDPOINT_PATH] *)
  DEVICE_CODE_ENDPOINT_PATH : string
}.

(** A wall clock never runs backwards. *)
Definition ClockMonotone `{Library} : Prop :=
  ∀ a b : Z, a ≤ b → nowSeconds a ≤ nowSeconds b.

(** A thousand milliseconds later the clock reads one second more. *)
Definition ClockWholeSeconds `{Library} : Prop :=
  ∀ a k : Z, nowSeconds (a + 1000 * k) = nowSeconds a + k.

(** Modelled from the spec: [Constants.AUTHORIZATION_PENDING], the error
    code of a token response while the user has not signed in yet. *)
Definition AUTHORIZATION_PENDING : string := "authorization_pending".

(** Modelled from the spec: [GrantType.DEVICE_CODE_GRANT], the value of the
    [grant_type] parameter of a poll. *)
Definition DEVICE_CODE_GRANT : string := "device_code".

(** ** Errors and promises *)

Inductive AuthError :=
| DeviceCodeCancelledError
| DeviceCodeExpiredError
| TransportError (reason : string)
| AuthorityError (reason : string)
| CallbackError (reason : string)
| TypeError.

Inductive Promise (A : Type) :=
| Pending
| Fulfilled (value : A)
| Rejected (reason : AuthError).

Arguments Pending {A}.
Arguments Fulfilled {A} value.
Arguments Rejected {A} reason.

(** Settling a promise that is already settled does nothing. *)
Definition resolve {A} (value : A) (p : Promise A) : Promise A :=
  match p with
  | Pending => Fulfilled value
  | _ => p
  end.

Definition reject {A} (reason : AuthError) (p : Promise A) : Promise A :=
  match p with
  | Pending => Rejected reason
  | _ => p
  end.

Definition isPending {A} (p : Promise A) : bool :=
  match p with
  | Pending => true
  | _ => false
  end.

(** ** Numbers that may be NaN *)

(** [a + b] where [b] may be [undefined]. *)
Definition jsAdd (a : Z) (b : option Z) : option Z := Z.add a <$> b.

(** [a * k] where [a] may be [undefined]. *)
Definition jsMul (a : option Z) (k : Z) : option Z := (λ x, x * k) <$> a.

(** [a > b] where [b] may be NaN: every comparison with NaN is false. *)
Definition jsGt (a : Z) (b : option Z) : bool :=
  match b with
  | Some b => b <? a
  | None => false
  end.

(** A string argument that is [undefined] is converted to ["undefined"]. *)
Definition jsString (s : option string) : string := default "undefined" s.

(** ** Data model *)

Record Configuration := {
  clientId : string
}.

Record Authority := {
  canonicalAuthority : string;
  tokenEndpoint : string
}.

(** The immutable part of a [DeviceCodeRequest]. Its [cancel] flag is read
    at every tick and comes with the tick; its [deviceCodeCallback] is part
    of the [World]. *)
Record DeviceCodeRequest := {
  scopes : option (list string);
  authority : option string
}.

(** The JSON body of the device-code endpoint's reply. *)
Record ServerDeviceCodeResponse := {
  user_code : option string;
  device_code : option string;
  verification_uri : option string;
  expires_in : option Z;
  wire_interval : option Z;
  wire_message : option string
}.

Record DeviceCodeResponse := {
  userCode : option string;
  deviceCode : option string;
  verificationUri : option string;
  expiresIn : option Z;
  interval : option Z;
  message : option string
}.

(** The JSON body of the token endpoint's reply: the two error properties
    the client reads, and every other property as it came. *)
Record ServerAuthorizationTokenResponse := {
  error : option string;
  error_description : option string;
  tokenFields : list (string * string)
}.

Record NetworkResponse (T : Type) := {
  body : option T
}.

Arguments body {T} _.

(** The text [JSON.stringify] returns for a token response body, kept
    symbolic. *)
Inductive JsonText :=
| JSON_stringify (value : option ServerAuthorizationTokenResponse).

(** What the transport and the caller observe, in order. *)
Inductive Effect :=
| GetRequest (url : string)
| Callback (response : DeviceCodeResponse)
| PostRequest (endpoint : string) (requestBody : string).

Inductive LogEntry :=
| ErrorTokenRequestCancelled
| ErrorDeviceCodeExpired (deviceCodeExpirationTime : option Z)
| InfoLogged (text : option string).

(** ** Scopes and request parameters *)

Module ScopeSet.

Section defs.
Context `{Library}.

(** Modelled from the spec: the [ScopeSet] class, which is not in
    [DeviceCodeClient.ts]. Scopes have set semantics: the input scopes and
    the required default scopes are merged, and a scope that is given
    twice, or is a default already, is held once. *)
Definition create (inputScopes : list string) (appClientId : string)
  (scopesRequired : bool) : gset string :=
  list_to_set inputScopes ∪ list_to_set (defaultScopes appClientId scopesRequired).

(** Modelled from the spec: the scopes of a [ScopeSet] as a list, in an
    order that depends on the set alone. *)
Definition asArray (scopeSet : gset string) : list string := elements scopeSet.

(** Modelled from the spec: the single space-delimited scope parameter. *)
Definition printScopes (scopeSet : gset string) : string :=
  String.concat " " (asArray scopeSet).

End defs.

End ScopeSet.

Module RequestParameterBuilder.

Section defs.
Context `{Library}.

(** Modelled from the spec: the parameters of the [RequestParameterBuilder]
    class, which is not in [DeviceCodeClient.ts], in the order they were
    first added. *)
Definition t : Type := list (string * string).

Definition empty : t := [].

(** Modelled from the spec: parameters are held without duplication, so
    adding a key again replaces its value in place. *)
Fixpoint set (key value : string) (parameters : t) : t :=
  match parameters with
  | [] => [(key, value)]
  | (k, v) :: rest =>
      if bool_decide (k = key) then (k, value) :: rest
      else (k, v) :: set key value rest
  end.

Definition addScopes (scopeSet : gset string) (parameters : t) : t :=
  set "scope" (encodeURIComponent (ScopeSet.printScopes scopeSet)) parameters.

Definition addClientId (clientId : string) (parameters : t) : t :=
  set "client_id" (encodeURIComponent clientId) parameters.

Definition addGrantType (grantType : string) (parameters : t) : t :=
  set "grant_type" (encodeURIComponent grantType) parameters.

Definition addDeviceCode (code : string) (parameters : t) : t :=
  set "device_code" (encodeURIComponent code) parameters.

(** Modelled from the spec: the URL-encoded query string, [key=value] pairs
    joined by [&] in the parameters' order. *)
Definition createQueryString (parameters : t) : string :=
  String.concat "&" (map (λ kv, fst kv +:+ "=" +:+ snd kv) parameters).

End defs.

End RequestParameterBuilder.

(** ** The host's interval timer *)

(** [setInterval(callback, delay)] runs the callback for the first time
    [delay] milliseconds after the call and then once per [delay] until
    [clearInterval]; the host may run it late and never runs it early. A
    delay that is NaN counts as zero. This is the timer of Node and of the
    browsers for a delay of 1 to 2147483647 milliseconds, the range they
    honour: [nextDue] is the earliest time the next run can have on either,
    not the time it has. Outside that range the hosts take about 1 ms
    instead, which this timer does not follow. *)
Record IntervalTimer := {
  active : bool;
  delayMilli : Z;
  nextDue : Z
}.

Definition setInterval (nowMilli : Z) (delay : option Z) : IntervalTimer :=
  {| active := true;
     delayMilli := default 0 delay;
     nextDue := nowMilli + default 0 delay |}.

Definition clearInterval (timer : IntervalTimer) : IntervalTimer :=
  {| active := false;
     delayMilli := delayMilli timer;
     nextDue := nextDue timer |}.

(** The timer may run its callback at wall-clock time [atMilli]. *)
Definition fires (timer : IntervalTimer) (atMilli : Z) : bool :=
  active timer && (nextDue timer <=? atMilli).

Definition rearm (timer : IntervalTimer) : IntervalTimer :=
  {| active := active timer;
     delayMilli := delayMilli timer;
     nextDue := nextDue timer + delayMilli timer |}.

(** ** The device-code client *)

(** What the environment does next: the timer comes due at [atMilli] while
    [request.cancel] holds [cancel], or one outstanding POST settles. *)
Inductive Event :=
| TimerDue (atMilli : Z) (cancel : bool)
| PostSettled (outcome : AuthError + NetworkResponse ServerAuthorizationTokenResponse).

(** What the interval callback reads at every tick. The request body, the
    expiration time and the delay are constants it closes over;
    [pollEndpoint] is [this.authority.tokenEndpoint], a field of the client
    that [acquireToken] assigns before polling: one call of [acquireToken]
    is followed, during which no other call on the same client assigns the
    field again. *)
Record PollClosure := {
  pollEndpoint : string;
  requestBody : string;
  deviceCodeExpirationTime : option Z;
  pollingIntervalMilli : option Z
}.

(** The mutable state of one [acquireTokenWithDeviceCode] call; [ticks]
    counts the runs of the interval callback. *)
Record PollState := {
  intervalId : IntervalTimer;
  ticks : nat;
  promise : Promise (option ServerAuthorizationTokenResponse);
  outstanding : nat;
  sent : list Effect;
  logged : list LogEntry
}.

(** The world one [acquireToken] call runs in. *)
Record World := {
  createAuthority : option string → AuthError + Authority;
  sendGetRequestAsync : string → AuthError + NetworkResponse ServerDeviceCodeResponse;
  deviceCodeCallback : DeviceCodeResponse → option AuthError;
  startMilli : Z;
  schedule : list Event
}.

(** What a caller of [acquireToken] and the collaborators have seen. *)
Record Outcome := {
  trace : list Effect;
  console : list LogEntry;
  returned : Promise JsonText
}.

Module DeviceCodeClient.

Section defs.
Context `{Library}.

Definition createQueryString (config : Configuration) (request : DeviceCodeRequest) : string :=
  let scopeSet := ScopeSet.create (default [] (scopes request)) (clientId config) false in
  let parameterBuilder := RequestParameterBuilder.addScopes scopeSet RequestParameterBuilder.empty in
  let parameterBuilder := RequestParameterBuilder.addClientId (clientId config) parameterBuilder in
  RequestParameterBuilder.createQueryString parameterBuilder.

Definition createDeviceCodeUrl (config : Configuration) (authority : Authority)
  (request : DeviceCodeRequest) : string :=
  let queryString := createQueryString config request in
  canonicalAuthority authority +:+ DEVICE_CODE_ENDPOINT_PATH +:+ "?" +:+ queryString.

(** The destructuring of the reply throws a [TypeError] when the reply has
    no body, and binds [undefined] to every property the body lacks. *)
Definition executeGetRequestToDeviceCodeEndpoint (w : World) (deviceCodeUrl : string)
  : AuthError + DeviceCodeResponse :=
  match sendGetRequestAsync w deviceCodeUrl with
  | inl reason => inl reason
  | inr response =>
      match body response with
      | None => inl TypeError
      | Some b =>
          inr {| userCode := user_code b;
                 deviceCode := device_code b;
                 verificationUri := verification_uri b;
                 expiresIn := expires_in b;
                 interval := wire_interval b;
                 message := wire_message b |}
      end
  end.

Definition getDeviceCode (config : Configuration) (authority : Authority) (w : World)
  (request : DeviceCodeRequest) : AuthError + DeviceCodeResponse :=
  let deviceCodeUrl := createDeviceCodeUrl config authority request in
  executeGetRequestToDeviceCodeEndpoint w deviceCodeUrl.

Definition createTokenRequestBody (config : Configuration) (request : DeviceCodeRequest)
  (deviceCodeResponse : DeviceCodeResponse) : string :=
  let scopeSet := ScopeSet.create (default [] (scopes request)) (clientId config) true in
  let requestParameters := RequestParameterBuilder.addScopes scopeSet RequestParameterBuilder.empty in
  let requestParameters := RequestParameterBuilder.addClientId (clientId config) requestParameters in
  let requestParameters := RequestParameterBuilder.addGrantType DEVICE_CODE_GRANT requestParameters in
  let requestParameters :=
    RequestParameterBuilder.addDeviceCode (jsString (deviceCode deviceCodeResponse)) requestParameters in
  RequestParameterBuilder.createQueryString requestParameters.

(** [clearInterval(intervalId)] followed by [resolve] or [reject]. *)
Definition settle (s : PollState)
  (by_ : Promise (option ServerAuthorizationTokenResponse) → Promise (option ServerAuthorizationTokenResponse))
  (entries : list LogEntry) : PollState :=
  {| intervalId := clearInterval (intervalId s);
     ticks := ticks s;
     promise := by_ (promise s);
     outstanding := outstanding s;
     sent := sent s;
     logged := logged s ++ entries |}.

(** [response.body && response.body.error == Constants.AUTHORIZATION_PENDING] *)
Definition authorizationPending (responseBody : option ServerAuthorizationTokenResponse) : bool :=
  match responseBody with
  | Some b => bool_decide (error b = Some AUTHORIZATION_PENDING)
  | None => false
  end.

(** The interval callback up to its [await]: the cancellation check, the
    expiry check and the POST to the token endpoint. *)
Definition intervalCallback (p : PollClosure) (cancel : bool) (atMilli : Z) (s : PollState) : PollState :=
  if cancel then
    settle s (reject DeviceCodeCancelledError) [ErrorTokenRequestCancelled]
  else if jsGt (nowSeconds atMilli) (deviceCodeExpirationTime p) then
    settle s (reject DeviceCodeExpiredError) [ErrorDeviceCodeExpired (deviceCodeExpirationTime p)]
  else
    {| intervalId := intervalId s;
       ticks := ticks s;
       promise := promise s;
       outstanding := S (outstanding s);
       sent := sent s ++ [PostRequest (pollEndpoint p) (requestBody p)];
       logged := logged s |}.

(** The interval callback after its [await]: a rejected POST goes to the
    [catch] block, a reply is inspected. *)
Definition afterPost (outcome : AuthError + NetworkResponse ServerAuthorizationTokenResponse)
  (s : PollState) : PollState :=
  match outcome with
  | inl reason => settle s (reject reason) []
  | inr response =>
      if authorizationPending (body response) then
        {| intervalId := intervalId s;
           ticks := ticks s;
           promise := promise s;
           outstanding := outstanding s;
           sent := sent s;
           logged := logged s ++ [InfoLogged (body response ≫= error_description)] |}
      else
        settle s (resolve (body response)) []
  end.

(** One event of the host's loop. An event that cannot happen (the timer
    is cleared or not due yet, no POST is outstanding) changes nothing. *)
Definition step (p : PollClosure) (s : PollState) (ev : Event) : PollState :=
  match ev with
  | TimerDue atMilli cancel =>
      if fires (intervalId s) atMilli then
        intervalCallback p cancel atMilli
          {| intervalId := rearm (intervalId s);
             ticks := S (ticks s);
             promise := promise s;
             outstanding := outstanding s;
             sent := sent s;
             logged := logged s |}
      else s
  | PostSettled outcome =>
      match outstanding s with
      | O => s
      | S n =>
          afterPost outcome
            {| intervalId := intervalId s;
               ticks := ticks s;
               promise := promise s;
               outstanding := n;
               sent := sent s;
               logged := logged s |}
      end
  end.

Definition run (p : PollClosure) (s : PollState) (events : list Event) : PollState :=
  fold_left (step p) events s.

Definition pollClosure (config : Configuration) (authority : Authority) (request : DeviceCodeRequest)
  (deviceCodeResponse : DeviceCodeResponse) (nowMilli : Z) : PollClosure :=
  {| pollEndpoint := tokenEndpoint authority;
     requestBody := createTokenRequestBody config request deviceCodeResponse;
     deviceCodeExpirationTime := jsAdd (nowSeconds nowMilli) (expiresIn deviceCodeResponse);
     pollingIntervalMilli := jsMul (interval deviceCodeResponse) 1000 |}.

(** The state right after [setInterval] has been called. *)
Definition started (p : PollClosure) (nowMilli : Z) : PollState :=
  {| intervalId := setInterval nowMilli (pollingIntervalMilli p);
     ticks := O;
     promise := Pending;
     outstanding := O;
     sent := [];
     logged := [] |}.

Definition acquireTokenWithDeviceCode (config : Configuration) (authority : Authority)
  (request : DeviceCodeRequest) (deviceCodeResponse : DeviceCodeResponse)
  (nowMilli : Z) (events : list Event) : PollState :=
  let p := pollClosure config authority request deviceCodeResponse nowMilli in
  run p (started p nowMilli) events.

(** [return JSON.stringify(response)] once the polling promise is settled. *)
Definition thenStringify (p : Promise (option ServerAuthorizationTokenResponse)) : Promise JsonText :=
  match p with
  | Pending => Pending
  | Fulfilled response => Fulfilled (JSON_stringify response)
  | Rejected reason => Rejected reason
  end.

Definition acquireToken (config : Configuration) (w : World) (request : DeviceCodeRequest) : Outcome :=
  match createAuthority w (authority request) with
  | inl reason => {| trace := []; console := []; returned := Rejected reason |}
  | inr authority =>
      let deviceCodeUrl := createDeviceCodeUrl config authority request in
      match getDeviceCode config authority w request with
      | inl reason =>
          {| trace := [GetRequest deviceCodeUrl]; console := []; returned := Rejected reason |}
      | inr deviceCodeResponse =>
          match deviceCodeCallback w deviceCodeResponse with
          | Some reason =>
              {| trace := [GetRequest deviceCodeUrl; Callback deviceCodeResponse];
                 console := [];
                 returned := Rejected reason |}
          | None =>
              let s := acquireTokenWithDeviceCode config authority request deviceCodeResponse
                         (startMilli w) (schedule w) in
              {| trace := [GetRequest deviceCodeUrl; Callback deviceCodeResponse] ++ sent s;
                 console := logged s;
                 returned := thenStringify (promise s) |}
          end
      end
  end.

End defs.

End DeviceCodeClient.

(** ** The states of the polling state machine *)

Inductive FlowState :=
| Polling
| Succeeded (result : option ServerAuthorizationTokenResponse)
| Expired
| Cancelled
| Failed (reason : AuthError).

(** The state of the flow, read off the promise [acquireTokenWithDeviceCode]
    returned. *)
Definition flowState (p : Promise (option ServerAuthorizationTokenResponse)) : FlowState :=
  match p with
  | Pending => Polling
  | Fulfilled result => Succeeded result
  | Rejected DeviceCodeExpiredError => Expired
  | Rejected DeviceCodeCancelledError => Cancelled
  | Rejected reason => Failed reason
  end.


(** The timer is armed exactly as long as the promise is pending: every
    path that settles the promise clears the timer first. *)
Definition consistent (s : PollState) : Prop :=
  active (intervalId s) = isPending (promise s).

Definition isPostRequest (e : Effect) : bool :=
  match e with
  | PostRequest _ _ => true
  | _ => false
  end.

Definition isCallback (e : Effect) : bool :=
  match e with
  | Callback _ => true
  | _ => false
  end.

(** ** A concrete library and concrete flows *)

(** [Math.round(ms / 1000)] *)
Definition roundSeconds (ms : Z) : Z := (ms + 500) / 1000.

(** Percent-encoding of the space, the one character of the sample
    requests that [encodeURIComponent] does not leave as it is. *)
Fixpoint encodeSpaces (s : string) : string :=
  match s with
  | EmptyString => EmptyString
  | String c rest =>
      if Ascii.eqb c (Ascii.ascii_of_nat 32) then "%20" +:+ encodeSpaces rest
      else String c (encodeSpaces rest)
  end.

Definition sampleLibrary : Library :=
  {| nowSeconds := roundSeconds;
     encodeURIComponent := encodeSpaces;
     defaultScopes := λ _ _, ["offline_access"]%string;
     DEVICE_CODE_ENDPOINT_PATH := "oauth2/v2.0/devicecode" |}.

Definition sampleConfig : Configuration :=
  {| clientId := "99cab759-2aab-420b-91d8-5e3d8d4f063b" |}.

Definition sampleAuthority : Authority :=
  {| canonicalAuthority := "https://login.microsoftonline.com/common/";
     tokenEndpoint := "https://login.microsoftonline.com/common/oauth2/v2.0/token" |}.

Definition sampleRequest : DeviceCodeRequest :=
  {| scopes := Some ["openid"; "profile"]%string; authority := None |}.

Definition swappedRequest : DeviceCodeRequest :=
  {| scopes := Some ["profile"; "openid"]%string; authority := None |}.

(** A well-formed reply: poll every 5 seconds, expire after 16. *)
Definition sampleReply : ServerDeviceCodeResponse :=
  {| user_code := Some "ABCD1234"%string;
     device_code := Some "device-code"%string;
     verification_uri := Some "https://microsoft.com/devicelogin"%string;
     expires_in := Some 16;
     wire_interval := Some 5;
     wire_message := Some "enter the code"%string |}.

Definition sampleDeviceCode : DeviceCodeResponse :=
  {| userCode := Some "ABCD1234"%string;
     deviceCode := Some "device-code"%string;
     verificationUri := Some "https://microsoft.com/devicelogin"%string;
     expiresIn := Some 16;
     interval := Some 5;
     message := Some "enter the code"%string |}.

(** A reply that lacks [interval] and [message]. *)
Definition malformedReply : ServerDeviceCodeResponse :=
  {| user_code := Some "ABCD1234"%string;
     device_code := Some "device-code"%string;
     verification_uri := Some "https://microsoft.com/devicelogin"%string;
     expires_in := Some 16;
     wire_interval := None;
     wire_message := None |}.

Definition pendingBody : ServerAuthorizationTokenResponse :=
  {| error := Some AUTHORIZATION_PENDING;
     error_description := Some "the user has not signed in yet"%string;
     tokenFields := [] |}.

Definition invalidGrantBody : ServerAuthorizationTokenResponse :=
  {| error := Some "invalid_grant"%string;
     error_description := Some "the device code is not valid"%string;
     tokenFields := [] |}.

Definition pendingReply : Event := PostSettled (inr {| body := Some pendingBody |}).

Definition invalidGrantReply : Event := PostSettled (inr {| body := Some invalidGrantBody |}).

Definition emptyReply : Event := PostSettled (inr {| body := None |}).

(** A world whose authority and device-code endpoint answer well and whose
    callback returns; polling begins at wall-clock time 0. *)
Definition worldWith (reply : ServerDeviceCodeResponse) (events : list Event) : World :=
  {| createAuthority := λ _, inr sampleAuthority;
     sendGetRequestAsync := λ _, inr {| body := Some reply |};
     deviceCodeCallback := λ _, None;
     startMilli := 0;
     schedule := events |}.

(** A world whose transport fails the device-code request. *)
Definition offlineWorld : World :=
  {| createAuthority := λ _, inr sampleAuthority;
     sendGetRequestAsync := λ _, inl (TransportError "ECONNREFUSED");
     deviceCodeCallback := λ _, None;
     startMilli := 0;
     schedule := [] |}.

(** Three polls answered [authorization_pending], then the tick at 20 s. *)
Definition patientSchedule : list Event :=
  [TimerDue 5000 false; pendingReply;
   TimerDue 10000 false; pendingReply;
   TimerDue 15000 false; pendingReply;
   TimerDue 20000 false].

(** A reply with tokens and no error. *)
Definition tokenBody : ServerAuthorizationTokenResponse :=
  {| error := None;
     error_description := None;
     tokenFields := [("access_token", "eyJ0eXAi"); ("expires_in", "3599")]%string |}.

Definition tokenReply : Event := PostSettled (inr {| body := Some tokenBody |}).

(** A device code whose reply had no [expires_in]. *)
Definition undatedDeviceCode : DeviceCodeResponse :=
  {| userCode := Some "ABCD1234"%string;
     deviceCode := Some "device-code"%string;
     verificationUri := Some "https://microsoft.com/devicelogin"%string;
     expiresIn := None;
     interval := Some 5;
     message := Some "enter the code"%string |}.

(** A world whose callback throws. *)
Definition throwingWorld : World :=
  {| createAuthority := λ _, inr sampleAuthority;
     sendGetRequestAsync := λ _, inr {| body := Some sampleReply |};
     deviceCodeCallback := λ _, Some (CallbackError "cannot display the code");
     startMilli := 0;
     schedule := patientSchedule |}.

(** A world whose device-code endpoint answers without a body. *)
Definition bodylessWorld : World :=
  {| createAuthority := λ _, inr sampleAuthority;
     sendGetRequestAsync := λ _, inr {| body := None |};
     deviceCodeCallback := λ _, None;
     startMilli := 0;
     schedule := patientSchedule |}.

(** ** The sample server of msal-node-extensions

    An embedding of [samples/msal-node-extensions/index.js]: the choice of
    the persistence by platform, the start of the server and its two
    routes, as the lists of calls they make on their collaborators. *)

Module Sample.

Inductive DataProtectionScope :=
| LocalMachine.

(** The [create] call [createPersistence] returns the promise of. *)
Inductive Persistence :=
| FilePersistenceWithDataProtection (fileLocation : string) (scope : DataProtectionScope)
| KeychainPersistence (fileLocation serviceName accountName : string)
| LibSecretPersistence (fileLocation serviceName accountName : string)
| FilePersistence (fileLocation : string).

Definition fileLocationOf (backend : Persistence) : string :=
  match backend with
  | FilePersistenceWithDataProtection fileLocation _ => fileLocation
  | KeychainPersistence fileLocation _ _ => fileLocation
  | LibSecretPersistence fileLocation _ _ => fileLocation
  | FilePersistence fileLocation => fileLocation
  end.

Definition createPersistence (platform cachePath : string) : Persistence :=
  if bool_decide (platform = "win32"%string) then
    FilePersistenceWithDataProtection cachePath LocalMachine
  else if bool_decide (platform = "darwin"%string) then
    KeychainPersistence cachePath "serviceName" "accountName"
  else if bool_decide (platform = "linux"%string) then
    LibSecretPersistence cachePath "serviceName" "accountName"
  else
    FilePersistence cachePath.

(** [process.env.PORT || 3000]: a port that is not set, or set to the empty
    string, is falsy. *)
Definition SERVER_PORT (envPort : option string) : string + Z :=
  match envPort with
  | Some port => if bool_decide (port = ""%string) then inr 3000 else inl port
  | None => inr 3000
  end.

Inductive LogText :=
| Listening (port : string + Z)
| ResponseText (response : string)
| ErrorText (reason : string)
| StringifiedError (reason : string).

(** The calls the sample makes, in order. *)
Inductive Action :=
| Create (backend : Persistence)
| RegisterGet (path : string)
| ReadFromPersistence
| Listen (port : string + Z)
| ConsoleLog (text : LogText)
| GetAuthCodeUrl
| Redirect (url : string)
| AcquireTokenByCode (code : option string)
| SendStatus (status : Z)
| StatusSend (status : Z) (payload : string)
| WriteToPersistence.

(** The process and the collaborators of the sample: a rejected promise is
    an [inl] or a [Some] with the reason. *)
Record Environment := {
  platform : string;
  envPort : option string;
  cachePath : string;
  create : Persistence → option string;
  readFromPersistence : option string;
  getAuthCodeUrl : string + string;
  acquireTokenByCode : option string → string + string;
  writeToPersistence : option string
}.

(** The top level of the script: nothing handles a rejection of
    [createPersistence] or of [readFromPersistence]. *)
Definition main (env : Environment) : list Action :=
  let backend := createPersistence (platform env) (cachePath env) in
  Create backend ::
  match create env backend with
  | Some _ => []
  | None =>
      [RegisterGet "/"; RegisterGet "/redirect"; ReadFromPersistence]
      ++ match readFromPersistence env with
         | Some _ => []
         | None =>
             [Listen (SERVER_PORT (envPort env));
              ConsoleLog (Listening (SERVER_PORT (envPort env)))]
         end
  end.

(** The handler of [GET /]. *)
Definition getRoot (env : Environment) : list Action :=
  GetAuthCodeUrl ::
  match getAuthCodeUrl env with
  | inr response => [Redirect response]
  | inl reason => [ConsoleLog (StringifiedError reason)]
  end.

(** The handler of [GET /redirect]: its [catch] also receives a rejection
    of [writeToPersistence], which the [then] callback returns. *)
Definition getRedirect (env : Environment) (code : option string) : list Action :=
  AcquireTokenByCode code ::
  match acquireTokenByCode env code with
  | inr response =>
      [ConsoleLog (ResponseText response); SendStatus 200; WriteToPersistence]
      ++ match writeToPersistence env with
         | None => []
         | Some reason => [ConsoleLog (ErrorText reason); StatusSend 500 reason]
         end
  | inl reason => [ConsoleLog (ErrorText reason); StatusSend 500 reason]
  end.

(** The statuses the handler answers with, in order. *)
Definition statusesOf (actions : list Action) : list Z :=
  omap (λ a, match a with
             | SendStatus status => Some status
             | StatusSend status _ => Some status
             | _ => None
             end) actions.

Definition isListen (a : Action) : bool :=
  match a with
  | Listen _ => true
  | _ => false
  end.

Definition linuxServer : Environment :=
  {| platform := "linux";
     envPort := None;
     cachePath := "/srv/sample/cache.json";
     create := λ _, None;
     readFromPersistence := None;
     getAuthCodeUrl := inr "https://login.microsoftonline.com/authorize"%string;
     acquireTokenByCode := λ _, inr "tokens"%string;
     writeToPersistence := None |}.

(** A server that acquires tokens and cannot write its cache. *)
Definition readOnlyServer : Environment :=
  {| platform := "freebsd";
     envPort := Some "8080"%string;
     cachePath := "/srv/sample/cache.json";
     create := λ _, None;
     readFromPersistence := None;
     getAuthCodeUrl := inr "https://login.microsoftonline.com/authorize"%string;
     acquireTokenByCode := λ _, inr "tokens"%string;
     writeToPersistence := Some "EACCES"%string |}.

End Sample.

(** * Properties *)

Import DeviceCodeClient.

Section Engine.
Context `{Library}.

(** ** How one event changes the state *)

Ltac step_cases :=
  unfold step, intervalCallback, afterPost, settle; simpl;
  repeat match goal with
         | |- context [match ?ev with TimerDue _ _ => _ | PostSettled _ => _ end] => destruct ev
         | |- context [match ?o with inl _ => _ | inr _ => _ end] => destruct o
         | |- context [match outstanding ?s with O => _ | S _ => _ end] => destruct (outstanding s)
         | |- context [if ?b then _ else _] => destruct b eqn:?
         end; simpl.

Lemma run_app (p : PollClosure) (s : PollState) (before after : list Event) :
  run p s (before ++ after) = run p (run p s before) after.
Proof. unfold run. apply fold_left_app. Qed.

Lemma run_cons (p : PollClosure) (s : PollState) (ev : Event) (events : list Event) :
  run p s (ev :: events) = run p (step p s ev) events.
Proof. reflexivity. Qed.

Lemma run_one (p : PollClosure) (s : PollState) (ev : Event) :
  run p s [ev] = step p s ev.
Proof. reflexivity. Qed.

(** A settled promise keeps its value: [resolve] and [reject] on it do
    nothing. *)
Lemma step_settled (p : PollClosure) (s : PollState) (ev : Event) :
  isPending (promise s) = false → promise (step p s ev) = promise s.
Proof. intros Hs. step_cases; destruct (promise s); simpl in *; congruence. Qed.

Lemma run_settled (p : PollClosure) (events : list Event) (s : PollState) :
  isPending (promise s) = false → promise (run p s events) = promise s.
Proof.
  revert s. induction events as [|ev events IH]; intros s Hs; [reflexivity|].
  rewrite run_cons, IH; rewrite step_settled; auto.
Qed.

(** Once the timer is cleared the callback never runs again, so nothing
    more is sent. *)
Lemma step_cleared (p : PollClosure) (s : PollState) (ev : Event) :
  active (intervalId s) = false →
  active (intervalId (step p s ev)) = false
  ∧ sent (step p s ev) = sent s
  ∧ ticks (step p s ev) = ticks s.
Proof.
  intros Hc. unfold step, fires. rewrite Hc. simpl.
  destruct ev as [atMilli cancel|outcome]; [auto|].
  destruct (outstanding s); [auto|].
  unfold afterPost, settle.
  destruct outcome as [reason|response]; simpl; [auto|].
  destruct (authorizationPending (body response)); simpl; auto.
Qed.

Lemma run_cleared (p : PollClosure) (events : list Event) (s : PollState) :
  active (intervalId s) = false →
  active (intervalId (run p s events)) = false
  ∧ sent (run p s events) = sent s
  ∧ ticks (run p s events) = ticks s.
Proof.
  revert s. induction events as [|ev events IH]; intros s Hc; [auto|].
  rewrite run_cons.
  destruct (step_cleared p s ev Hc) as (Ha & Hs & Ht).
  destruct (IH _ Ha) as (Ha' & Hs' & Ht'). rewrite Hs', Ht'. auto.
Qed.

Lemma started_consistent (p : PollClosure) (nowMilli : Z) : consistent (started p nowMilli).
Proof. reflexivity. Qed.

Lemma step_consistent (p : PollClosure) (s : PollState) (ev : Event) :
  consistent s → consistent (step p s ev).
Proof.
  unfold consistent, step, fires. intros Hc.
  destruct ev as [atMilli cancel|outcome].
  - destruct (active (intervalId s)) eqn:Ha; simpl; [|congruence].
    destruct (nextDue (intervalId s) <=? atMilli); [|congruence].
    unfold intervalCallback, settle.
    destruct cancel; simpl.
    { destruct (promise s); simpl in *; congruence. }
    destruct (jsGt _ _); simpl; [|congruence].
    destruct (promise s); simpl in *; congruence.
  - destruct (outstanding s); [assumption|].
    unfold afterPost, settle.
    destruct outcome as [reason|response]; simpl.
    { destruct (promise s); reflexivity. }
    destruct (authorizationPending (body response)); simpl; [assumption|].
    destruct (promise s); reflexivity.
Qed.

Lemma run_consistent (p : PollClosure) (events : list Event) (s : PollState) :
  consistent s → consistent (run p s events).
Proof.
  revert s. induction events as [|ev events IH]; intros s Hc; [assumption|].
  rewrite run_cons. apply IH, step_consistent, Hc.
Qed.

End Engine.

Section Claims.
Context `{Library}.

Variables (config : Configuration) (authority : Authority) (request : DeviceCodeRequest).
Variables (deviceCodeResponse : DeviceCodeResponse) (nowMilli : Z).

Local Abbreviation engine := (acquireTokenWithDeviceCode config authority request deviceCodeResponse nowMilli).
Local Abbreviation closure := (pollClosure config authority request deviceCodeResponse nowMilli).

Lemma engine_app (before after : list Event) :
  engine (before ++ after) = run closure (engine before) after.
Proof. unfold acquireTokenWithDeviceCode. apply run_app. Qed.

Lemma engine_consistent (events : list Event) : consistent (engine events).
Proof. apply run_consistent, started_consistent. Qed.

(** While the timer is armed the promise is pending. *)
Lemma engine_armed_pending (events : list Event) (atMilli : Z) :
  fires (intervalId (engine events)) atMilli = true → promise (engine events) = Pending.
Proof.
  unfold fires. intros Hf. apply andb_true_iff in Hf as [Ha _].
  pose proof (engine_consistent events) as Hc. unfold consistent in Hc.
  rewrite Ha in Hc. destruct (promise (engine events)); simpl in Hc; congruence.
Qed.

(** A terminal state is final: the promise and the requests sent stay as
    they are whatever happens next. *)
Lemma terminal_final (s : PollState) (events : list Event) :
  consistent s → isPending (promise s) = false →
  promise (run closure s events) = promise s
  ∧ sent (run closure s events) = sent s
  ∧ active (intervalId (run closure s events)) = false.
Proof.
  intros Hc Hs. unfold consistent in Hc. rewrite Hs in Hc.
  destruct (run_cleared closure events s Hc) as (Ha & Hsent & _).
  rewrite run_settled by assumption. auto.
Qed.

(** C3: when a tick is evaluated while the cancellation flag is set, the
    flow ends as Cancelled with DeviceCodeCancelledError and no
    token-endpoint request is sent on that tick or on any later one. The
    clock is not consulted, so cancellation also wins over a device code
    that has expired. *)
Theorem C3_cancellation_precedes_expiry_and_post
  (before after : list Event) (atMilli : Z) :
  fires (intervalId (engine before)) atMilli = true →
  promise (engine (before ++ TimerDue atMilli true :: after)) = Rejected DeviceCodeCancelledError
  ∧ flowState (promise (engine (before ++ TimerDue atMilli true :: after))) = Cancelled
  ∧ sent (engine (before ++ TimerDue atMilli true :: after)) = sent (engine before)
  ∧ logged (engine (before ++ [TimerDue atMilli true]))
    = logged (engine before) ++ [ErrorTokenRequestCancelled].
Proof.
  intros Hf. pose proof (engine_armed_pending _ _ Hf) as Hp.
  rewrite !engine_app, !run_cons.
  set (s := engine before) in *.
  assert (Hstep : step closure s (TimerDue atMilli true)
                  = settle {| intervalId := rearm (intervalId s); ticks := S (ticks s);
                              promise := promise s; outstanding := outstanding s;
                              sent := sent s; logged := logged s |}
                      (reject DeviceCodeCancelledError) [ErrorTokenRequestCancelled]).
  { unfold step. rewrite Hf. reflexivity. }
  rewrite Hstep.
  match goal with |- context [run closure ?t after] => set (s' := t) end.
  assert (Hc : consistent s') by (subst s'; unfold consistent, settle; simpl; rewrite Hp; reflexivity).
  assert (Hs : isPending (promise s') = false) by (subst s'; simpl; rewrite Hp; reflexivity).
  destruct (terminal_final s' after Hc Hs) as (Hprom & Hsent & _).
  rewrite Hprom, Hsent. subst s'. simpl. rewrite Hp. simpl. auto.
Qed.

(** What an evaluated tick does: the callback runs on the re-armed timer. *)
Lemma tick_step (s : PollState) (atMilli : Z) (cancel : bool) :
  fires (intervalId s) atMilli = true →
  step closure s (TimerDue atMilli cancel)
  = intervalCallback closure cancel atMilli
      {| intervalId := rearm (intervalId s); ticks := S (ticks s);
         promise := promise s; outstanding := outstanding s;
         sent := sent s; logged := logged s |}.
Proof. intros Hf. unfold step. rewrite Hf. reflexivity. Qed.

(** What a settled POST does when one is outstanding. *)
Lemma reply_step (s : PollState) (n : nat)
  (outcome : AuthError + NetworkResponse ServerAuthorizationTokenResponse) :
  outstanding s = S n →
  step closure s (PostSettled outcome)
  = afterPost outcome
      {| intervalId := intervalId s; ticks := ticks s;
         promise := promise s; outstanding := n;
         sent := sent s; logged := logged s |}.
Proof. intros Ho. unfold step. rewrite Ho. reflexivity. Qed.

(** A tick that finds the request not cancelled and the clock past
    [deviceCodeExpirationTime] rejects with the expiry error and sends
    nothing. *)
Lemma tick_expired (before after : list Event) (atMilli : Z) :
  fires (intervalId (engine before)) atMilli = true →
  jsGt (nowSeconds atMilli) (deviceCodeExpirationTime closure) = true →
  promise (engine (before ++ TimerDue atMilli false :: after)) = Rejected DeviceCodeExpiredError
  ∧ sent (engine (before ++ TimerDue atMilli false :: after)) = sent (engine before)
  ∧ logged (engine (before ++ [TimerDue atMilli false]))
    = logged (engine before) ++ [ErrorDeviceCodeExpired (deviceCodeExpirationTime closure)].
Proof.
  intros Hf Hlate. pose proof (engine_armed_pending _ _ Hf) as Hp.
  rewrite !engine_app, !run_cons.
  set (s := engine before) in *.
  rewrite (tick_step s atMilli false Hf).
  unfold intervalCallback. rewrite Hlate.
  match goal with |- context [run closure ?t after] => set (s' := t) end.
  assert (Hc : consistent s') by (subst s'; unfold consistent, settle; simpl; rewrite Hp; reflexivity).
  assert (Hs : isPending (promise s') = false) by (subst s'; simpl; rewrite Hp; reflexivity).
  destruct (terminal_final s' after Hc Hs) as (Hprom & Hsent & _).
  rewrite Hprom, Hsent. subst s'. simpl. rewrite Hp. simpl. auto.
Qed.

(** C4: when a tick is evaluated while cancellation has not been requested
    and the clock reads more than deviceCodeExpirationTime, which is the
    reading at the start of polling plus expiresIn, the flow ends as
    Expired with DeviceCodeExpiredError and that tick sends no
    token-endpoint request. *)
Theorem C4_expired_tick_sends_nothing
  (expiry : Z) (before after : list Event) (atMilli : Z) :
  expiresIn deviceCodeResponse = Some expiry →
  fires (intervalId (engine before)) atMilli = true →
  nowSeconds nowMilli + expiry < nowSeconds atMilli →
  deviceCodeExpirationTime closure = Some (nowSeconds nowMilli + expiry)
  ∧ promise (engine (before ++ TimerDue atMilli false :: after)) = Rejected DeviceCodeExpiredError
  ∧ flowState (promise (engine (before ++ TimerDue atMilli false :: after))) = Expired
  ∧ sent (engine (before ++ TimerDue atMilli false :: after)) = sent (engine before)
  ∧ logged (engine (before ++ [TimerDue atMilli false]))
    = logged (engine before) ++ [ErrorDeviceCodeExpired (Some (nowSeconds nowMilli + expiry))].
Proof.
  intros He Hf Hlate.
  assert (Hexp : deviceCodeExpirationTime closure = Some (nowSeconds nowMilli + expiry)).
  { simpl. rewrite He. reflexivity. }
  assert (Hgt : jsGt (nowSeconds atMilli) (deviceCodeExpirationTime closure) = true).
  { rewrite Hexp. apply Z.ltb_lt. lia. }
  destruct (tick_expired before after atMilli Hf Hgt) as (Hprom & Hsent & Hlog).
  rewrite Hprom, Hsent, Hlog, Hexp. auto.
Qed.



(** A reply that is not [authorization_pending] resolves a pending promise
    with its body, whatever the body is, and ends the flow. *)
Lemma reply_resolves (before after : list Event)
  (response : NetworkResponse ServerAuthorizationTokenResponse) :
  promise (engine before) = Pending →
  outstanding (engine before) ≠ O →
  authorizationPending (body response) = false →
  promise (engine (before ++ PostSettled (inr response) :: after)) = Fulfilled (body response)
  ∧ active (intervalId (engine (before ++ PostSettled (inr response) :: after))) = false
  ∧ sent (engine (before ++ PostSettled (inr response) :: after)) = sent (engine before).
Proof.
  intros Hp Ho Hnp. rewrite engine_app, run_cons.
  destruct (outstanding (engine before)) as [|n] eqn:Hn; [congruence|].
  rewrite (reply_step _ n _ Hn). unfold afterPost. rewrite Hnp.
  match goal with |- context [run closure ?t after] => set (s' := t) end.
  assert (Hc : consistent s') by (subst s'; unfold consistent, settle; simpl; rewrite Hp; reflexivity).
  assert (Hs : isPending (promise s') = false) by (subst s'; simpl; rewrite Hp; reflexivity).
  destruct (terminal_final s' after Hc Hs) as (Hprom & Hsent & Hact).
  rewrite Hprom, Hsent, Hact. subst s'. simpl. rewrite Hp. auto.
Qed.

(** The polling engine sends POST requests and nothing else. *)
Lemma step_sends_posts (s : PollState) (ev : Event) :
  forallb isPostRequest (sent s) = true →
  forallb isPostRequest (sent (step closure s ev)) = true.
Proof.
  intros Hs. unfold step, intervalCallback, afterPost, settle.
  destruct ev as [atMilli cancel|outcome].
  - destruct (fires _ _); [|assumption].
    destruct cancel; [assumption|].
    destruct (jsGt _ _); [assumption|].
    simpl. rewrite forallb_app, Hs. reflexivity.
  - destruct (outstanding s); [assumption|].
    destruct outcome as [reason|response]; [assumption|].
    destruct (authorizationPending _); assumption.
Qed.

Lemma run_sends_posts (events : list Event) (s : PollState) :
  forallb isPostRequest (sent s) = true →
  forallb isPostRequest (sent (run closure s events)) = true.
Proof.
  revert s. induction events as [|ev events IH]; intros s Hs; [assumption|].
  rewrite run_cons. apply IH, step_sends_posts, Hs.
Qed.

Lemma engine_sends_posts (events : list Event) :
  forallb isPostRequest (sent (engine events)) = true.
Proof. apply run_sends_posts. reflexivity. Qed.

(** ** Timing *)

(** The timer keeps its delay, the tick after [k] evaluations is due
    [k + 1] delays after the start, and every request sent was sent by an
    evaluation of its own. *)
Lemma step_timed (delay : Z) (s : PollState) (ev : Event) :
  delayMilli (intervalId s) = delay
  ∧ nextDue (intervalId s) = nowMilli + (Z.of_nat (ticks s) + 1) * delay
  ∧ (length (sent s) ≤ ticks s)%nat →
  delayMilli (intervalId (step closure s ev)) = delay
  ∧ nextDue (intervalId (step closure s ev))
    = nowMilli + (Z.of_nat (ticks (step closure s ev)) + 1) * delay
  ∧ (length (sent (step closure s ev)) ≤ ticks (step closure s ev))%nat.
Proof.
  intros (Hd & Hn & Hl). unfold step, intervalCallback, afterPost, settle.
  destruct ev as [atMilli cancel|outcome].
  - destruct (fires _ _); [|auto].
    assert (Hnext : nextDue (intervalId s) + delayMilli (intervalId s)
                    = nowMilli + (Z.of_nat (S (ticks s)) + 1) * delay).
    { rewrite Hd, Hn, Nat2Z.inj_succ. lia. }
    destruct cancel; simpl; [repeat split; auto; lia|].
    destruct (jsGt _ _); simpl; [repeat split; auto; lia|].
    rewrite length_app. simpl. repeat split; auto; lia.
  - destruct (outstanding s); [auto|].
    destruct outcome as [reason|response]; simpl; [auto|].
    destruct (authorizationPending _); simpl; auto.
Qed.

Lemma run_timed (delay : Z) (events : list Event) (s : PollState) :
  delayMilli (intervalId s) = delay
  ∧ nextDue (intervalId s) = nowMilli + (Z.of_nat (ticks s) + 1) * delay
  ∧ (length (sent s) ≤ ticks s)%nat →
  delayMilli (intervalId (run closure s events)) = delay
  ∧ nextDue (intervalId (run closure s events))
    = nowMilli + (Z.of_nat (ticks (run closure s events)) + 1) * delay
  ∧ (length (sent (run closure s events)) ≤ ticks (run closure s events))%nat.
Proof.
  revert s. induction events as [|ev events IH]; intros s Hs; [assumption|].
  rewrite run_cons. apply IH, step_timed, Hs.
Qed.

Lemma engine_timed (events : list Event) :
  nextDue (intervalId (engine events))
  = nowMilli + (Z.of_nat (ticks (engine events)) + 1) * default 0 (pollingIntervalMilli closure)
  ∧ (length (sent (engine events)) ≤ ticks (engine events))%nat.
Proof.
  apply (run_timed (default 0 (pollingIntervalMilli closure)) events (started closure nowMilli)).
  simpl. repeat split; auto. lia.
Qed.

(** C7, as the code has it: the interval callback is installed with a
    delay of interval times 1000 milliseconds, and for a delay that the
    host's timer honours (1 to 2147483647 ms) the timer keeps that delay.
    The first evaluation can happen one such delay after polling begins
    and not before; the evaluation that follows k earlier ones cannot
    happen before k + 1 delays after polling began; each evaluation counts
    one tick; the timer stays armed exactly as long as the flow has not
    reached a terminal state. *)
Theorem C7_first_tick_one_interval_after_start (seconds : Z) (events : list Event) :
  interval deviceCodeResponse = Some seconds →
  1 ≤ seconds * 1000 ≤ 2147483647 →
  pollingIntervalMilli closure = Some (seconds * 1000)
  ∧ delayMilli (intervalId (engine events)) = seconds * 1000
  ∧ (∀ atMilli : Z,
       fires (intervalId (engine [])) atMilli = true ↔ nowMilli + seconds * 1000 ≤ atMilli)
  ∧ (∀ atMilli : Z,
       fires (intervalId (engine events)) atMilli = true →
       nowMilli + (Z.of_nat (ticks (engine events)) + 1) * (seconds * 1000) ≤ atMilli)
  ∧ (∀ (atMilli : Z) (cancel : bool),
       fires (intervalId (engine events)) atMilli = true →
       ticks (engine (events ++ [TimerDue atMilli cancel])) = S (ticks (engine events)))
  ∧ active (intervalId (engine events)) = isPending (promise (engine events)).
Proof.
  intros Hi Hrange.
  assert (Hd : pollingIntervalMilli closure = Some (seconds * 1000)).
  { simpl. rewrite Hi. reflexivity. }
  destruct (run_timed (seconds * 1000) events (started closure nowMilli)) as (Hdelay & Hn & _).
  { unfold started, setInterval. rewrite Hd. simpl. repeat split; auto. lia. }
  split; [exact Hd|]. split; [exact Hdelay|]. split; [|split; [|split]].
  - intros atMilli. unfold acquireTokenWithDeviceCode, fires. simpl run.
    unfold started, setInterval. simpl. rewrite Hi. simpl.
    rewrite Z.leb_le. reflexivity.
  - intros atMilli Hf. unfold fires in Hf. apply andb_true_iff in Hf as [_ Hdue].
    apply Z.leb_le in Hdue. unfold acquireTokenWithDeviceCode. rewrite <- Hn. exact Hdue.
  - intros atMilli cancel Hf. rewrite engine_app, run_one, (tick_step _ _ _ Hf).
    unfold intervalCallback, settle.
    destruct cancel; [reflexivity|]. destruct (jsGt _ _); reflexivity.
  - apply engine_consistent.
Qed.

Section SixteenSeconds.

Hypothesis clock_monotone : ClockMonotone.
Hypothesis clock_whole_seconds : ClockWholeSeconds.
Hypothesis interval_5 : interval deviceCodeResponse = Some 5.
Hypothesis expiresIn_16 : expiresIn deviceCodeResponse = Some 16.

(** The tick that comes fourth is due 20 seconds after the start, when the
    device code has expired. *)
Lemma fourth_tick_is_late (s : PollState) (atMilli : Z) :
  nextDue (intervalId s) = nowMilli + (Z.of_nat (ticks s) + 1) * 5000 →
  (3 ≤ ticks s)%nat →
  fires (intervalId s) atMilli = true →
  jsGt (nowSeconds atMilli) (deviceCodeExpirationTime closure) = true.
Proof.
  intros Hn Hk Hf. unfold fires in Hf. apply andb_true_iff in Hf as [_ Hdue].
  apply Z.leb_le in Hdue. simpl. rewrite expiresIn_16. simpl.
  apply Z.ltb_lt.
  pose proof (clock_whole_seconds nowMilli 20) as Hw.
  pose proof (clock_monotone (nowMilli + 1000 * 20) atMilli) as Hm.
  lia.
Qed.

Lemma step_three_polls (s : PollState) (ev : Event) :
  nextDue (intervalId s) = nowMilli + (Z.of_nat (ticks s) + 1) * 5000
  ∧ delayMilli (intervalId s) = 5000
  ∧ (length (sent s) ≤ ticks s)%nat
  ∧ (length (sent s) ≤ 3)%nat
  ∧ ((4 ≤ ticks s)%nat → active (intervalId s) = false) →
  (length (sent (step closure s ev)) ≤ 3)%nat
  ∧ ((4 ≤ ticks (step closure s ev))%nat → active (intervalId (step closure s ev)) = false).
Proof.
  intros (Hn & Hd & Hl & H3 & H4).
  destruct ev as [atMilli cancel|outcome].
  - destruct (fires (intervalId s) atMilli) eqn:Hf;
      [|unfold step; rewrite Hf; auto].
    rewrite (tick_step s atMilli cancel Hf). unfold intervalCallback, settle.
    destruct cancel; [simpl; auto|].
    destruct (jsGt _ _) eqn:Hgt; [simpl; auto|].
    assert (Hk : (ticks s < 3)%nat).
    { destruct (decide (3 ≤ ticks s)%nat) as [Hge|]; [|lia].
      rewrite (fourth_tick_is_late s atMilli Hn Hge Hf) in Hgt. discriminate. }
    simpl. rewrite length_app. simpl. split; lia.
  - unfold step, afterPost, settle.
    destruct (outstanding s); [auto|].
    destruct outcome as [reason|response]; simpl; [auto|].
    destruct (authorizationPending _); simpl; auto.
Qed.

Lemma run_three_polls (events : list Event) (s : PollState) :
  nextDue (intervalId s) = nowMilli + (Z.of_nat (ticks s) + 1) * 5000
  ∧ delayMilli (intervalId s) = 5000
  ∧ (length (sent s) ≤ ticks s)%nat
  ∧ (length (sent s) ≤ 3)%nat
  ∧ ((4 ≤ ticks s)%nat → active (intervalId s) = false) →
  (length (sent (run closure s events)) ≤ 3)%nat
  ∧ ((4 ≤ ticks (run closure s events))%nat → active (intervalId (run closure s events)) = false).
Proof.
  revert s. induction events as [|ev events IH]; intros s Hs; [tauto|].
  rewrite run_cons. apply IH.
  destruct Hs as (Hn & Hd & Hl & H3 & H4).
  destruct (step_timed 5000 s ev (conj Hd (conj Hn Hl))) as (Hd' & Hn' & Hl').
  destruct (step_three_polls s ev (conj Hn (conj Hd (conj Hl (conj H3 H4))))) as (H3' & H4').
  auto.
Qed.

(** C6: with interval = 5 seconds and expiresIn = 16 seconds, on a host
    whose clock is monotone and counts whole seconds, the engine sends at
    most 3 token-endpoint requests whatever the schedule. Once a fourth
    tick has been evaluated the flow is no longer polling, and a fourth
    tick that does not find the request cancelled ends the flow as
    Expired without sending. *)
Theorem C6_at_most_three_polls (events : list Event) :
  (length (sent (engine events)) ≤ 3)%nat
  ∧ ((4 ≤ ticks (engine events))%nat → flowState (promise (engine events)) ≠ Polling)
  ∧ (∀ (atMilli : Z) (after : list Event),
       ticks (engine events) = 3%nat →
       fires (intervalId (engine events)) atMilli = true →
       flowState (promise (engine (events ++ TimerDue atMilli false :: after))) = Expired
       ∧ sent (engine (events ++ TimerDue atMilli false :: after)) = sent (engine events)).
Proof.
  assert (Hstart : pollingIntervalMilli closure = Some 5000).
  { simpl. rewrite interval_5. reflexivity. }
  destruct (engine_timed events) as [Hn Hl]. rewrite Hstart in Hn. simpl in Hn.
  destruct (run_three_polls events (started closure nowMilli)) as [H3 H4].
  { unfold started, setInterval. rewrite Hstart. simpl. repeat split; auto; lia. }
  split; [exact H3|]. split.
  - intros Hk Hpoll. specialize (H4 Hk).
    pose proof (engine_consistent events) as Hc. unfold consistent in Hc.
    fold (engine events) in H4. rewrite H4 in Hc.
    destruct (promise (engine events)) as [| |[]]; simpl in *; congruence.
  - intros atMilli after Hk Hf.
    assert (Hgt : jsGt (nowSeconds atMilli) (deviceCodeExpirationTime closure) = true).
    { apply (fourth_tick_is_late (engine events)); [exact Hn|lia|exact Hf]. }
    destruct (tick_expired events after atMilli Hf Hgt) as (Hprom & Hsent & _).
    rewrite Hprom, Hsent. auto.
Qed.

End SixteenSeconds.

End Claims.

Section Orchestrator.
Context `{Library}.

Variables (config : Configuration) (w : World) (request : DeviceCodeRequest).
Variables (auth : Authority) (deviceCodeResponse : DeviceCodeResponse).

Local Abbreviation engine :=
  (acquireTokenWithDeviceCode config auth request deviceCodeResponse (startMilli w)).

(** The device code has been fetched and handed to a callback that
    returned: what [acquireToken] yields is what the polling yields. *)
Lemma acquireToken_polls :
  createAuthority w (authority request) = inr auth →
  getDeviceCode config auth w request = inr deviceCodeResponse →
  deviceCodeCallback w deviceCodeResponse = None →
  acquireToken config w request
  = {| trace := [GetRequest (createDeviceCodeUrl config auth request);
                 Callback deviceCodeResponse] ++ sent (engine (schedule w));
       console := logged (engine (schedule w));
       returned := thenStringify (promise (engine (schedule w))) |}.
Proof.
  intros Ha Hg Hc. unfold acquireToken. rewrite Ha, Hg, Hc. reflexivity.
Qed.

(** C5: once the device-code request has been answered, the effects of
    acquireToken begin with that GET request, then the one call of
    deviceCodeCallback with the response built from the answer, and every
    effect after the callback is a token-endpoint POST: the callback is
    called exactly once, after the fetch and before the first poll. *)
Theorem C5_callback_once_between_fetch_and_first_poll :
  createAuthority w (authority request) = inr auth →
  getDeviceCode config auth w request = inr deviceCodeResponse →
  ∃ polls : list Effect,
    trace (acquireToken config w request)
    = GetRequest (createDeviceCodeUrl config auth request) :: Callback deviceCodeResponse :: polls
    ∧ forallb isPostRequest polls = true
    ∧ length (List.filter isCallback (trace (acquireToken config w request))) = 1%nat.
Proof.
  intros Ha Hg.
  assert (Hcount : ∀ polls : list Effect, forallb isPostRequest polls = true →
                   List.filter isCallback polls = []).
  { induction polls as [|e polls IH]; [reflexivity|].
    simpl. intros Hp. apply andb_true_iff in Hp as [He Hp].
    destruct e; simpl in *; try discriminate. auto. }
  destruct (deviceCodeCallback w deviceCodeResponse) as [reason|] eqn:Hc.
  - exists []. unfold acquireToken. rewrite Ha, Hg, Hc. simpl. auto.
  - exists (sent (engine (schedule w))).
    rewrite (acquireToken_polls Ha Hg Hc). simpl.
    pose proof (engine_sends_posts config auth request deviceCodeResponse (startMilli w) (schedule w)) as Hp.
    rewrite (Hcount _ Hp). auto.
Qed.

(** C10: a reply without a body that arrives while the flow is polling
    resolves the promise with that absent body: the flow ends as Succeeded,
    the timer is cleared, nothing more is sent, and acquireToken returns
    the serialisation of the absent body as a success. *)
Theorem C10_absent_body_is_returned_as_success
  (before after : list Event) (response : NetworkResponse ServerAuthorizationTokenResponse) :
  createAuthority w (authority request) = inr auth →
  getDeviceCode config auth w request = inr deviceCodeResponse →
  deviceCodeCallback w deviceCodeResponse = None →
  schedule w = before ++ PostSettled (inr response) :: after →
  body response = None →
  flowState (promise (engine before)) = Polling →
  outstanding (engine before) ≠ O →
  flowState (promise (engine (schedule w))) = Succeeded None
  ∧ active (intervalId (engine (schedule w))) = false
  ∧ sent (engine (schedule w)) = sent (engine before)
  ∧ returned (acquireToken config w request) = Fulfilled (JSON_stringify None).
Proof.
  intros Ha Hg Hc Hsched Hb Hpoll Ho.
  assert (Hp : promise (engine before) = Pending).
  { destruct (promise (engine before)) as [| |[]]; simpl in Hpoll; congruence. }
  assert (Hnp : authorizationPending (body response) = false) by (rewrite Hb; reflexivity).
  destruct (reply_resolves config auth request deviceCodeResponse (startMilli w)
              before after response Hp Ho Hnp) as (Hprom & Hact & Hsent).
  rewrite (acquireToken_polls Ha Hg Hc), Hsched, Hprom, Hact, Hsent, Hb. simpl. auto.
Qed.

(** C1, as the code has it: a reply whose body carries an error code other
    than authorization_pending, arriving while the flow is polling, ends
    the flow with the timer cleared and the promise resolved with that
    body, and acquireToken returns the serialised body as its result. *)
Theorem C1_error_reply_resolves_with_the_body
  (before after : list Event) (response : NetworkResponse ServerAuthorizationTokenResponse)
  (b : ServerAuthorizationTokenResponse) (code : string) :
  createAuthority w (authority request) = inr auth →
  getDeviceCode config auth w request = inr deviceCodeResponse →
  deviceCodeCallback w deviceCodeResponse = None →
  schedule w = before ++ PostSettled (inr response) :: after →
  body response = Some b →
  error b = Some code →
  code ≠ AUTHORIZATION_PENDING →
  flowState (promise (engine before)) = Polling →
  outstanding (engine before) ≠ O →
  flowState (promise (engine (schedule w))) = Succeeded (Some b)
  ∧ active (intervalId (engine (schedule w))) = false
  ∧ sent (engine (schedule w)) = sent (engine before)
  ∧ returned (acquireToken config w request) = Fulfilled (JSON_stringify (Some b)).
Proof.
  intros Ha Hg Hc Hsched Hb He Hcode Hpoll Ho.
  assert (Hp : promise (engine before) = Pending).
  { destruct (promise (engine before)) as [| |[]]; simpl in Hpoll; congruence. }
  assert (Hnp : authorizationPending (body response) = false).
  { rewrite Hb. simpl. rewrite He. apply bool_decide_eq_false_2. congruence. }
  destruct (reply_resolves config auth request deviceCodeResponse (startMilli w)
              before after response Hp Ho Hnp) as (Hprom & Hact & Hsent).
  rewrite (acquireToken_polls Ha Hg Hc), Hsched, Hprom, Hact, Hsent, Hb. simpl. auto.
Qed.

(** C8, as the code has it: getDeviceCode fails with the transport's error
    when the transport call fails; when the reply has a body, it validates
    nothing and returns a DeviceCodeResponse whose six fields are the
    body's user_code, device_code, verification_uri, expires_in, interval
    and message, a field the body lacks staying undefined. *)
Theorem C8_getDeviceCode_copies_the_reply :
  (∀ reason : AuthError,
     sendGetRequestAsync w (createDeviceCodeUrl config auth request) = inl reason →
     getDeviceCode config auth w request = inl reason)
  ∧ (∀ (response : NetworkResponse ServerDeviceCodeResponse) (b : ServerDeviceCodeResponse),
       sendGetRequestAsync w (createDeviceCodeUrl config auth request) = inr response →
       body response = Some b →
       getDeviceCode config auth w request
       = inr {| userCode := user_code b;
                deviceCode := device_code b;
                verificationUri := verification_uri b;
                expiresIn := expires_in b;
                interval := wire_interval b;
                message := wire_message b |}).
Proof.
  unfold getDeviceCode, executeGetRequestToDeviceCodeEndpoint. split.
  - intros reason Hsend. rewrite Hsend. reflexivity.
  - intros response b Hsend Hb. rewrite Hsend, Hb. reflexivity.
Qed.

End Orchestrator.

Section Scopes.
Context `{Library}.

(** The query string of the device-code request: the scope parameter, then
    the client id. *)
Lemma createQueryString_unfold (config : Configuration) (request : DeviceCodeRequest) :
  createQueryString config request
  = String.concat "&"
      ["scope=" +:+ encodeURIComponent
                      (String.concat " "
                         (ScopeSet.asArray
                            (ScopeSet.create (default [] (scopes request)) (clientId config) false)));
       "client_id=" +:+ encodeURIComponent (clientId config)].
Proof. reflexivity. Qed.

(** C9: two requests whose scopes are permutations of each other give the
    same query string; the string is a function of the request, made of
    the scope parameter followed by the client id; the scopes joined by
    spaces in the scope parameter are the input scopes and the default
    scopes, each once; and giving again a scope that is already an input
    or a default changes nothing. *)
Theorem C9_scope_order_is_canonical (config : Configuration) (request1 request2 : DeviceCodeRequest) :
  default [] (scopes request1) ≡ₚ default [] (scopes request2) →
  createQueryString config request1 = createQueryString config request2
  ∧ createQueryString config request1
    = String.concat "&"
        ["scope=" +:+ encodeURIComponent
                        (String.concat " "
                           (ScopeSet.asArray
                              (ScopeSet.create (default [] (scopes request1)) (clientId config) false)));
         "client_id=" +:+ encodeURIComponent (clientId config)]
  ∧ NoDup (ScopeSet.asArray
             (ScopeSet.create (default [] (scopes request1)) (clientId config) false))
  ∧ (∀ scope : string,
       scope ∈ ScopeSet.asArray
                 (ScopeSet.create (default [] (scopes request1)) (clientId config) false)
       ↔ scope ∈ default [] (scopes request1) ∨ scope ∈ defaultScopes (clientId config) false)
  ∧ (∀ scope : string,
       scope ∈ default [] (scopes request1) ∨ scope ∈ defaultScopes (clientId config) false →
       createQueryString config
         {| scopes := Some (scope :: default [] (scopes request1));
            authority := authority request1 |}
       = createQueryString config request1).
Proof.
  intros Hperm. split; [|split; [|split; [|split]]].
  - rewrite !createQueryString_unfold. unfold ScopeSet.create.
    rewrite (list_to_set_perm_L _ _ Hperm). reflexivity.
  - apply createQueryString_unfold.
  - apply NoDup_elements.
  - intros scope. unfold ScopeSet.asArray, ScopeSet.create.
    rewrite elem_of_elements, elem_of_union, !elem_of_list_to_set. reflexivity.
  - intros scope Hin. rewrite !createQueryString_unfold. unfold ScopeSet.create. simpl.
    replace ({[scope]} ∪ list_to_set (default [] (scopes request1))
             ∪ list_to_set (defaultScopes (clientId config) false) : gset string)
      with (list_to_set (default [] (scopes request1))
            ∪ list_to_set (defaultScopes (clientId config) false) : gset string);
      [reflexivity|].
    apply set_eq. intros x.
    rewrite !elem_of_union, elem_of_singleton, !elem_of_list_to_set.
    split; [tauto|]. intros [[->|Hx]|Hx]; tauto.
Qed.

End Scopes.

(** * The properties on concrete flows *)

Section Samples.

#[local] Existing Instance sampleLibrary.

Local Abbreviation sampleEngine :=
  (acquireTokenWithDeviceCode sampleConfig sampleAuthority sampleRequest sampleDeviceCode 0).

Lemma roundSeconds_monotone : ClockMonotone.
Proof.
  intros a b Hab. simpl. unfold roundSeconds.
  apply Z.div_le_mono; lia.
Qed.

Lemma roundSeconds_whole_seconds : ClockWholeSeconds.
Proof.
  intros a k. simpl. unfold roundSeconds.
  replace (a + 1000 * k + 500) with (a + 500 + k * 1000) by lia.
  apply Z.div_add. lia.
Qed.

Lemma sample_device_code_fetched (events : list Event) :
  getDeviceCode sampleConfig sampleAuthority (worldWith sampleReply events) sampleRequest
  = inr sampleDeviceCode.
Proof. reflexivity. Qed.

(** On a reply carrying [invalid_grant] the caller of [acquireToken] gets a
    fulfilled promise and the flow is Succeeded, not Failed. *)
Lemma C1_error_reply_returned_as_success :
  error invalidGrantBody = Some "invalid_grant"%string
  ∧ "invalid_grant"%string ≠ AUTHORIZATION_PENDING
  ∧ returned (acquireToken sampleConfig
                (worldWith sampleReply [TimerDue 5000 false; invalidGrantReply]) sampleRequest)
    = Fulfilled (JSON_stringify (Some invalidGrantBody))
  ∧ flowState (promise (sampleEngine [TimerDue 5000 false; invalidGrantReply]))
    = Succeeded (Some invalidGrantBody)
  ∧ ¬ (∃ reason : AuthError,
         returned (acquireToken sampleConfig
                     (worldWith sampleReply [TimerDue 5000 false; invalidGrantReply]) sampleRequest)
         = Rejected reason).
Proof.
  split; [reflexivity|]. split; [discriminate|].
  split; [reflexivity|]. split; [reflexivity|].
  intros [reason Hr]. vm_compute in Hr. discriminate.
Qed.

Lemma C1_witness :
  flowState (promise (sampleEngine [TimerDue 5000 false; invalidGrantReply; TimerDue 10000 false]))
  = Succeeded (Some invalidGrantBody)
  ∧ returned (acquireToken sampleConfig
                (worldWith sampleReply [TimerDue 5000 false; invalidGrantReply; TimerDue 10000 false])
                sampleRequest)
    = Fulfilled (JSON_stringify (Some invalidGrantBody)).
Proof.
  pose proof (C1_error_reply_resolves_with_the_body sampleConfig
                (worldWith sampleReply [TimerDue 5000 false; invalidGrantReply; TimerDue 10000 false])
                sampleRequest sampleAuthority sampleDeviceCode
                [TimerDue 5000 false] [TimerDue 10000 false]
                {| body := Some invalidGrantBody |} invalidGrantBody "invalid_grant"
                eq_refl eq_refl eq_refl eq_refl eq_refl eq_refl) as Hw.
  destruct Hw as (Hstate & _ & _ & Hret);
    [discriminate | reflexivity | discriminate |].
  split; [exact Hstate | exact Hret].
Defined.


(** The request is cancelled and the device code has expired: cancellation
    wins. *)
Lemma C3_witness :
  fires (intervalId (sampleEngine [TimerDue 5000 false; pendingReply])) 20000 = true
  ∧ jsGt (roundSeconds 20000) (Some 16) = true
  ∧ promise (sampleEngine ([TimerDue 5000 false; pendingReply]
                           ++ TimerDue 20000 true :: [TimerDue 25000 false]))
    = Rejected DeviceCodeCancelledError.
Proof.
  split; [reflexivity|]. split; [reflexivity|].
  apply (C3_cancellation_precedes_expiry_and_post sampleConfig sampleAuthority sampleRequest
           sampleDeviceCode 0 [TimerDue 5000 false; pendingReply] [TimerDue 25000 false] 20000).
  reflexivity.
Defined.

Lemma C4_witness :
  expiresIn sampleDeviceCode = Some 16
  ∧ fires (intervalId (sampleEngine [TimerDue 5000 false; pendingReply])) 17000 = true
  ∧ roundSeconds 0 + 16 < roundSeconds 17000
  ∧ promise (sampleEngine ([TimerDue 5000 false; pendingReply]
                           ++ TimerDue 17000 false :: [TimerDue 22000 false]))
    = Rejected DeviceCodeExpiredError.
Proof.
  split; [reflexivity|]. split; [reflexivity|]. split; [reflexivity|].
  apply (C4_expired_tick_sends_nothing sampleConfig sampleAuthority sampleRequest
           sampleDeviceCode 0 16 [TimerDue 5000 false; pendingReply] [TimerDue 22000 false] 17000);
    reflexivity.
Defined.

Lemma C5_witness :
  createAuthority (worldWith sampleReply patientSchedule) (authority sampleRequest)
  = inr sampleAuthority
  ∧ getDeviceCode sampleConfig sampleAuthority (worldWith sampleReply patientSchedule) sampleRequest
    = inr sampleDeviceCode
  ∧ length (List.filter isCallback
              (trace (acquireToken sampleConfig (worldWith sampleReply patientSchedule) sampleRequest)))
    = 1%nat.
Proof.
  split; [reflexivity|]. split; [reflexivity|].
  destruct (C5_callback_once_between_fetch_and_first_poll sampleConfig
              (worldWith sampleReply patientSchedule) sampleRequest sampleAuthority sampleDeviceCode
              eq_refl eq_refl) as (polls & _ & _ & Honce).
  exact Honce.
Defined.

Lemma C6_witness :
  interval sampleDeviceCode = Some 5
  ∧ expiresIn sampleDeviceCode = Some 16
  ∧ length (sent (sampleEngine patientSchedule)) = 3%nat
  ∧ (length (sent (sampleEngine patientSchedule)) ≤ 3)%nat
  ∧ flowState (promise (sampleEngine patientSchedule)) = Expired.
Proof.
  split; [reflexivity|]. split; [reflexivity|]. split; [reflexivity|].
  split; [|reflexivity].
  apply (C6_at_most_three_polls sampleConfig sampleAuthority sampleRequest sampleDeviceCode 0
           roundSeconds_monotone roundSeconds_whole_seconds eq_refl eq_refl patientSchedule).
Defined.

(** A tick offered when polling begins, or at any time before 5 seconds
    have passed, is not evaluated. *)
Lemma C7_no_tick_when_polling_begins :
  interval sampleDeviceCode = Some 5
  ∧ fires (intervalId (sampleEngine [])) 0 = false
  ∧ ticks (sampleEngine [TimerDue 0 false; TimerDue 4999 false]) = 0%nat
  ∧ sent (sampleEngine [TimerDue 0 false; TimerDue 4999 false]) = []
  ∧ ticks (sampleEngine [TimerDue 5000 false]) = 1%nat.
Proof. repeat split; reflexivity. Qed.

Lemma C7_witness :
  interval sampleDeviceCode = Some 5
  ∧ 1 ≤ 5 * 1000 ≤ 2147483647
  ∧ (fires (intervalId (sampleEngine [TimerDue 5000 false; pendingReply])) 10000 = true →
     0 + (Z.of_nat (ticks (sampleEngine [TimerDue 5000 false; pendingReply])) + 1) * (5 * 1000)
     ≤ 10000).
Proof.
  split; [reflexivity|]. split; [lia|].
  assert (Hrange : 1 ≤ 5 * 1000 ≤ 2147483647) by lia.
  destruct (C7_first_tick_one_interval_after_start sampleConfig sampleAuthority sampleRequest
              sampleDeviceCode 0 5 [TimerDue 5000 false; pendingReply] eq_refl Hrange)
    as (_ & _ & _ & Hlate & _).
  exact (Hlate 10000).
Defined.

(** A reply without [interval] and [message] is not refused: it comes back
    as a DeviceCodeResponse with the two fields undefined. *)
Lemma C8_malformed_reply_is_returned :
  wire_interval malformedReply = None
  ∧ wire_message malformedReply = None
  ∧ getDeviceCode sampleConfig sampleAuthority (worldWith malformedReply []) sampleRequest
    = inr {| userCode := Some "ABCD1234"%string;
             deviceCode := Some "device-code"%string;
             verificationUri := Some "https://microsoft.com/devicelogin"%string;
             expiresIn := Some 16;
             interval := None;
             message := None |}
  ∧ ¬ (∃ reason : AuthError,
         getDeviceCode sampleConfig sampleAuthority (worldWith malformedReply []) sampleRequest
         = inl reason).
Proof.
  split; [reflexivity|]. split; [reflexivity|]. split; [reflexivity|].
  intros [reason Hr]. discriminate.
Qed.

Lemma C8_witness :
  getDeviceCode sampleConfig sampleAuthority offlineWorld sampleRequest
  = inl (TransportError "ECONNREFUSED")
  ∧ getDeviceCode sampleConfig sampleAuthority (worldWith sampleReply []) sampleRequest
    = inr sampleDeviceCode.
Proof.
  split.
  - apply (C8_getDeviceCode_copies_the_reply sampleConfig offlineWorld sampleRequest sampleAuthority).
    reflexivity.
  - apply (proj2 (C8_getDeviceCode_copies_the_reply sampleConfig (worldWith sampleReply [])
                    sampleRequest sampleAuthority) {| body := Some sampleReply |} sampleReply);
      reflexivity.
Defined.

Lemma C9_witness :
  default [] (scopes sampleRequest) ≡ₚ default [] (scopes swappedRequest)
  ∧ createQueryString sampleConfig sampleRequest = createQueryString sampleConfig swappedRequest.
Proof.
  assert (Hperm : default [] (scopes sampleRequest) ≡ₚ default [] (scopes swappedRequest))
    by apply perm_swap.
  split; [exact Hperm|].
  exact (proj1 (C9_scope_order_is_canonical sampleConfig sampleRequest swappedRequest Hperm)).
Defined.

Lemma C10_witness :
  flowState (promise (sampleEngine [TimerDue 5000 false])) = Polling
  ∧ outstanding (sampleEngine [TimerDue 5000 false]) ≠ O
  ∧ returned (acquireToken sampleConfig
                (worldWith sampleReply [TimerDue 5000 false; emptyReply; TimerDue 10000 false])
                sampleRequest)
    = Fulfilled (JSON_stringify None).
Proof.
  split; [reflexivity|]. split; [discriminate|].
  apply (C10_absent_body_is_returned_as_success sampleConfig
           (worldWith sampleReply [TimerDue 5000 false; emptyReply; TimerDue 10000 false])
           sampleRequest sampleAuthority sampleDeviceCode
           [TimerDue 5000 false] [TimerDue 10000 false] {| body := None |});
    try reflexivity.
  discriminate.
Defined.

End Samples.

(** * Further properties of the polling engine *)

Section Polls.
Context `{Library}.

Variables (config : Configuration) (authority : Authority) (request : DeviceCodeRequest).
Variables (deviceCodeResponse : DeviceCodeResponse) (nowMilli : Z).

Local Abbreviation engine :=
  (acquireTokenWithDeviceCode config authority request deviceCodeResponse nowMilli).
Local Abbreviation closure := (pollClosure config authority request deviceCodeResponse nowMilli).
Local Abbreviation poll :=
  (PostRequest (tokenEndpoint authority) (createTokenRequestBody config request deviceCodeResponse)).

(** X1: A flow that has reached a terminal state stays there: whatever comes
    due or arrives later, the promise keeps its value, no tick is
    evaluated and nothing more is sent. *)
Theorem terminal_state_is_final (before after : list Event) :
  isPending (promise (engine before)) = false →
  promise (engine (before ++ after)) = promise (engine before)
  ∧ sent (engine (before ++ after)) = sent (engine before)
  ∧ ticks (engine (before ++ after)) = ticks (engine before)
  ∧ active (intervalId (engine (before ++ after))) = false.
Proof.
  intros Hs. rewrite engine_app.
  pose proof (engine_consistent config authority request deviceCodeResponse nowMilli before) as Hc.
  unfold consistent in Hc. rewrite Hs in Hc.
  destruct (run_cleared closure after (engine before) Hc) as (Ha & Hsent & Ht).
  rewrite run_settled by assumption. auto.
Qed.

(** The engine sends POSTs with the body built before polling, and one
    evaluation of the callback sends at most one. *)
Lemma step_bodies (s : PollState) (ev : Event) :
  Forall (λ e, ∃ endpoint : string,
            e = PostRequest endpoint (createTokenRequestBody config request deviceCodeResponse))
    (sent s) →
  Forall (λ e, ∃ endpoint : string,
            e = PostRequest endpoint (createTokenRequestBody config request deviceCodeResponse))
    (sent (step closure s ev))
  ∧ (length (sent (step closure s ev)) - length (sent s)
     ≤ ticks (step closure s ev) - ticks s)%nat.
Proof.
  intros Hall. unfold step, intervalCallback, afterPost, settle.
  destruct ev as [atMilli cancel|outcome].
  - destruct (fires _ _); [|split; [assumption|lia]].
    destruct cancel; [simpl; split; [assumption|lia]|].
    destruct (jsGt _ _); [simpl; split; [assumption|lia]|].
    simpl. rewrite length_app. simpl. split; [|lia].
    apply Forall_app. split; [assumption|].
    constructor; [eexists; reflexivity|constructor].
  - destruct (outstanding s) as [|n]; [split; [assumption|lia]|].
    destruct outcome as [reason|response]; simpl; [split; [assumption|lia]|].
    destruct (authorizationPending (body response)); simpl; split; try assumption; lia.
Qed.

Lemma run_bodies (events : list Event) (s : PollState) :
  Forall (λ e, ∃ endpoint : string,
            e = PostRequest endpoint (createTokenRequestBody config request deviceCodeResponse))
    (sent s) →
  Forall (λ e, ∃ endpoint : string,
            e = PostRequest endpoint (createTokenRequestBody config request deviceCodeResponse))
    (sent (run closure s events)).
Proof.
  revert s. induction events as [|ev events IH]; intros s Hs; [assumption|].
  rewrite run_cons. apply IH, step_bodies, Hs.
Qed.

(** X2: The body of the poll is built once, before polling: every request
    the engine sends is a POST that carries that same body, whatever the
    schedule; a tick sends at most one, so there are never more requests
    than ticks evaluated, and an event that is no evaluated tick sends
    none. *)
Theorem every_poll_carries_the_same_body (events : list Event) :
  Forall (λ e, ∃ endpoint : string,
            e = PostRequest endpoint (createTokenRequestBody config request deviceCodeResponse))
    (sent (engine events))
  ∧ (length (sent (engine events)) ≤ ticks (engine events))%nat
  ∧ (∀ ev : Event,
       (length (sent (engine (events ++ [ev]))) - length (sent (engine events))
        ≤ ticks (engine (events ++ [ev])) - ticks (engine events))%nat).
Proof.
  assert (Hall : Forall (λ e, ∃ endpoint : string,
                           e = PostRequest endpoint
                                 (createTokenRequestBody config request deviceCodeResponse))
                   (sent (engine events))).
  { apply run_bodies. constructor. }
  split; [exact Hall|]. split.
  - destruct (engine_timed config authority request deviceCodeResponse nowMilli events) as [_ Hl].
    exact Hl.
  - intros ev. rewrite engine_app, run_one. apply step_bodies, Hall.
Qed.

(** A tick that finds the request not cancelled and the code not expired
    sends one POST and leaves the flow polling. *)
Lemma tick_polls (before : list Event) (atMilli : Z) :
  fires (intervalId (engine before)) atMilli = true →
  jsGt (nowSeconds atMilli) (deviceCodeExpirationTime closure) = false →
  sent (engine (before ++ [TimerDue atMilli false])) = sent (engine before) ++ [poll]
  ∧ outstanding (engine (before ++ [TimerDue atMilli false])) = S (outstanding (engine before))
  ∧ promise (engine (before ++ [TimerDue atMilli false])) = Pending.
Proof.
  intros Hf Hgt.
  pose proof (engine_armed_pending config authority request deviceCodeResponse nowMilli _ _ Hf) as Hp.
  rewrite engine_app, run_one, (tick_step _ _ _ _ _ _ _ _ Hf).
  unfold intervalCallback. rewrite Hgt. simpl. auto.
Qed.

(** X3: A device code without [expiresIn] never expires: the expiration time
    is NaN, so a tick that is evaluated while the request is not cancelled
    sends its POST however late it comes. *)
Theorem undefined_expiry_never_expires (before : list Event) (atMilli : Z) :
  expiresIn deviceCodeResponse = None →
  fires (intervalId (engine before)) atMilli = true →
  deviceCodeExpirationTime closure = None
  ∧ sent (engine (before ++ [TimerDue atMilli false])) = sent (engine before) ++ [poll]
  ∧ flowState (promise (engine (before ++ [TimerDue atMilli false]))) = Polling.
Proof.
  intros He Hf.
  assert (Hexp : deviceCodeExpirationTime closure = None) by (simpl; rewrite He; reflexivity).
  assert (Hgt : jsGt (nowSeconds atMilli) (deviceCodeExpirationTime closure) = false)
    by (rewrite Hexp; reflexivity).
  destruct (tick_polls before atMilli Hf Hgt) as (Hsent & _ & Hp).
  rewrite Hsent, Hp. auto.
Qed.

(** X4: Nothing keeps polls from overlapping: a tick that is evaluated
    while an earlier POST still awaits its answer, and that finds the
    request not cancelled and the code not expired, sends a further POST
    all the same, after which two or more are in flight. *)
Theorem tick_polls_while_a_post_is_outstanding (before : list Event) (atMilli : Z) :
  fires (intervalId (engine before)) atMilli = true →
  jsGt (nowSeconds atMilli) (deviceCodeExpirationTime closure) = false →
  outstanding (engine before) ≠ O →
  (∃ e : Effect,
     isPostRequest e = true
     ∧ sent (engine (before ++ [TimerDue atMilli false])) = sent (engine before) ++ [e])
  ∧ outstanding (engine (before ++ [TimerDue atMilli false])) = S (outstanding (engine before))
  ∧ (2 ≤ outstanding (engine (before ++ [TimerDue atMilli false])))%nat.
Proof.
  intros Hf Hgt Ho.
  destruct (tick_polls before atMilli Hf Hgt) as (Hsent & Hout & _).
  split; [exists poll; split; [reflexivity|exact Hsent]|].
  split; [exact Hout|]. rewrite Hout. lia.
Qed.

(** A fulfilled promise carries a body that a reply of the schedule
    brought, that body is not an [authorization_pending] one, and at least
    one POST had been sent. *)
Lemma run_fulfilled (events : list Event) (s : PollState)
  (result : option ServerAuthorizationTokenResponse) :
  (outstanding s ≤ length (sent s))%nat →
  promise (run closure s events) = Fulfilled result →
  promise s = Fulfilled result
  ∨ (authorizationPending result = false
     ∧ (∃ response : NetworkResponse ServerAuthorizationTokenResponse,
          PostSettled (inr response) ∈ events ∧ body response = result)
     ∧ sent (run closure s events) ≠ []).
Proof.
  revert s. induction events as [|ev events IH]; intros s Hout Hr; [left; exact Hr|].
  rewrite run_cons in Hr.
  assert (Hout' : (outstanding (step closure s ev) ≤ length (sent (step closure s ev)))%nat).
  { unfold step, intervalCallback, afterPost, settle.
    destruct ev as [atMilli cancel|outcome].
    - destruct (fires _ _); [|assumption].
      destruct cancel; [assumption|]. destruct (jsGt _ _); [assumption|].
      simpl. rewrite length_app. simpl. lia.
    - destruct (outstanding s) as [|n] eqn:Hn; [rewrite Hn; assumption|].
      destruct outcome as [reason|response]; simpl; [lia|].
      destruct (authorizationPending (body response)); simpl; lia. }
  destruct (IH _ Hout' Hr) as [Hstep|(Hnp & (response & Hin & Hb) & Hsent)].
  - destruct (promise s) as [|value|reason] eqn:Hp.
    + right. unfold step in Hstep.
      destruct ev as [atMilli cancel|outcome].
      * destruct (fires _ _); [|congruence].
        unfold intervalCallback, settle in Hstep.
        destruct cancel; [simpl in Hstep; rewrite Hp in Hstep; discriminate|].
        destruct (jsGt _ _); simpl in Hstep; rewrite Hp in Hstep; discriminate.
      * destruct (outstanding s) as [|n] eqn:Hn; [congruence|].
        unfold afterPost, settle in Hstep.
        destruct outcome as [reason|response];
          [simpl in Hstep; rewrite Hp in Hstep; discriminate|].
        destruct (authorizationPending (body response)) eqn:Hnp;
          simpl in Hstep; rewrite Hp in Hstep; [discriminate|].
        simpl in Hstep. injection Hstep as Hb. subst result.
        split; [exact Hnp|]. split.
        { exists response. split; [left|reflexivity]. }
        assert (Hone : sent (step closure s (PostSettled (inr response))) ≠ []).
        { unfold step. rewrite Hn. unfold afterPost. rewrite Hnp. simpl.
          intros Hnil. rewrite Hnil in Hout. simpl in Hout. lia. }
        intros Hnil. apply Hone.
        assert (Hcl : active (intervalId (step closure s (PostSettled (inr response)))) = false).
        { unfold step. rewrite Hn. unfold afterPost. rewrite Hnp. reflexivity. }
        destruct (run_cleared closure events _ Hcl) as (_ & Hsame & _).
        rewrite <- Hsame. exact Hnil.
    + left. rewrite step_settled in Hstep by (rewrite Hp; reflexivity). congruence.
    + rewrite step_settled in Hstep by (rewrite Hp; reflexivity). congruence.
  - right. split; [exact Hnp|]. split; [|exact Hsent].
    exists response. split; [right; exact Hin|exact Hb].
Qed.

(** X5: A success is never made up: when the polling promise is fulfilled, its
    value is the body of a reply that arrived, that body is not an
    [authorization_pending] one, and at least one POST had been sent. *)
Theorem success_is_a_received_body (events : list Event)
  (result : option ServerAuthorizationTokenResponse) :
  promise (engine events) = Fulfilled result →
  authorizationPending result = false
  ∧ (∃ response : NetworkResponse ServerAuthorizationTokenResponse,
       PostSettled (inr response) ∈ events ∧ body response = result)
  ∧ sent (engine events) ≠ [].
Proof.
  intros Hr.
  destruct (run_fulfilled events (started closure nowMilli) result) as [Hs|Hgood];
    [simpl; lia | exact Hr | discriminate | exact Hgood].
Qed.

End Polls.

Section PollBound.
Context `{Library}.

Variables (config : Configuration) (authority : Authority) (request : DeviceCodeRequest).
Variables (deviceCodeResponse : DeviceCodeResponse) (nowMilli : Z).
Variables (seconds expiry : Z).

Hypothesis clock_monotone : ClockMonotone.
Hypothesis clock_whole_seconds : ClockWholeSeconds.
Hypothesis interval_seconds : interval deviceCodeResponse = Some seconds.
Hypothesis expiresIn_expiry : expiresIn deviceCodeResponse = Some expiry.
Hypothesis seconds_positive : 0 < seconds.
Hypothesis expiry_not_negative : 0 ≤ expiry.

Local Abbreviation engine :=
  (acquireTokenWithDeviceCode config authority request deviceCodeResponse nowMilli).
Local Abbreviation closure := (pollClosure config authority request deviceCodeResponse nowMilli).

(** After [expiry / seconds] ticks the next one is due past the expiry. *)
Lemma tick_past_expiry (s : PollState) (atMilli : Z) :
  nextDue (intervalId s) = nowMilli + (Z.of_nat (ticks s) + 1) * (seconds * 1000) →
  expiry / seconds ≤ Z.of_nat (ticks s) →
  fires (intervalId s) atMilli = true →
  jsGt (nowSeconds atMilli) (deviceCodeExpirationTime closure) = true.
Proof.
  intros Hn Hk Hf. unfold fires in Hf. apply andb_true_iff in Hf as [_ Hdue].
  apply Z.leb_le in Hdue. simpl. rewrite expiresIn_expiry. simpl.
  apply Z.ltb_lt.
  pose proof (clock_whole_seconds nowMilli ((Z.of_nat (ticks s) + 1) * seconds)) as Hw.
  pose proof (clock_monotone (nowMilli + 1000 * ((Z.of_nat (ticks s) + 1) * seconds)) atMilli) as Hm.
  pose proof (Z.div_mod expiry seconds) as Hdiv.
  pose proof (Z.mod_pos_bound expiry seconds seconds_positive) as Hmod.
  assert (Hlate : expiry < (Z.of_nat (ticks s) + 1) * seconds) by nia.
  lia.
Qed.

Lemma step_bounded (s : PollState) (ev : Event) :
  nextDue (intervalId s) = nowMilli + (Z.of_nat (ticks s) + 1) * (seconds * 1000)
  ∧ (length (sent s) ≤ ticks s)%nat
  ∧ Z.of_nat (length (sent s)) ≤ expiry / seconds
  ∧ (expiry / seconds < Z.of_nat (ticks s) → active (intervalId s) = false) →
  Z.of_nat (length (sent (step closure s ev))) ≤ expiry / seconds
  ∧ (expiry / seconds < Z.of_nat (ticks (step closure s ev)) →
     active (intervalId (step closure s ev)) = false).
Proof.
  intros (Hn & Hl & Hb & Hoff).
  destruct ev as [atMilli cancel|outcome].
  - destruct (fires (intervalId s) atMilli) eqn:Hf;
      [|unfold step; rewrite Hf; auto].
    rewrite (tick_step config authority request deviceCodeResponse nowMilli s atMilli cancel Hf).
    unfold intervalCallback, settle.
    destruct cancel; [simpl; auto|].
    destruct (jsGt _ _) eqn:Hgt; [simpl; auto|].
    assert (Hk : Z.of_nat (ticks s) < expiry / seconds).
    { destruct (decide (expiry / seconds ≤ Z.of_nat (ticks s))) as [Hge|]; [|lia].
      rewrite (tick_past_expiry s atMilli Hn Hge Hf) in Hgt. discriminate. }
    simpl. rewrite length_app. simpl. split; lia.
  - unfold step, afterPost, settle.
    destruct (outstanding s); [auto|].
    destruct outcome as [reason|response]; simpl; [auto|].
    destruct (authorizationPending (body response)); simpl; auto.
Qed.

Lemma run_bounded (events : list Event) (s : PollState) :
  delayMilli (intervalId s) = seconds * 1000
  ∧ nextDue (intervalId s) = nowMilli + (Z.of_nat (ticks s) + 1) * (seconds * 1000)
  ∧ (length (sent s) ≤ ticks s)%nat
  ∧ Z.of_nat (length (sent s)) ≤ expiry / seconds
  ∧ (expiry / seconds < Z.of_nat (ticks s) → active (intervalId s) = false) →
  Z.of_nat (length (sent (run closure s events))) ≤ expiry / seconds.
Proof.
  revert s. induction events as [|ev events IH]; intros s Hs; [tauto|].
  rewrite run_cons. apply IH.
  destruct Hs as (Hd & Hn & Hl & Hb & Hoff).
  destruct (step_timed config authority request deviceCodeResponse nowMilli
              (seconds * 1000) s ev (conj Hd (conj Hn Hl))) as (Hd' & Hn' & Hl').
  destruct (step_bounded s ev (conj Hn (conj Hl (conj Hb Hoff)))) as (Hb' & Hoff').
  auto.
Qed.

(** X6: Expiry bounds the polls: with a positive interval and an expiry that is
    not negative, on a host whose clock is monotone and counts whole
    seconds, no schedule makes the engine send more than expiresIn divided
    by interval (rounded down) requests. *)
Theorem polls_bounded_by_expiry (events : list Event) :
  Z.of_nat (length (sent (engine events))) ≤ expiry / seconds.
Proof.
  apply run_bounded. unfold started, setInterval. simpl.
  rewrite interval_seconds. simpl.
  pose proof (Z.div_pos expiry seconds expiry_not_negative seconds_positive).
  repeat split; auto; lia.
Qed.

End PollBound.

(** * Further properties of the orchestrator *)

Section Flow.
Context `{Library}.

Variables (config : Configuration) (w : World) (request : DeviceCodeRequest).
Variables (auth : Authority) (deviceCodeResponse : DeviceCodeResponse).

Local Abbreviation engine :=
  (acquireTokenWithDeviceCode config auth request deviceCodeResponse (startMilli w)).
Local Abbreviation closure :=
  (pollClosure config auth request deviceCodeResponse (startMilli w)).

(** X7: A POST that the transport fails, while the flow is polling, ends the
    flow: the timer is cleared, the failure is what the promise is
    rejected with and what acquireToken's caller gets, and the request is
    not sent again. *)
Theorem failed_poll_ends_the_flow (before after : list Event) (reason : AuthError) :
  createAuthority w (authority request) = inr auth →
  getDeviceCode config auth w request = inr deviceCodeResponse →
  deviceCodeCallback w deviceCodeResponse = None →
  schedule w = before ++ PostSettled (inl reason) :: after →
  promise (engine before) = Pending →
  outstanding (engine before) ≠ O →
  promise (engine (schedule w)) = Rejected reason
  ∧ active (intervalId (engine (schedule w))) = false
  ∧ sent (engine (schedule w)) = sent (engine before)
  ∧ returned (acquireToken config w request) = Rejected reason.
Proof.
  intros Ha Hg Hc Hsched Hp Ho.
  rewrite (acquireToken_polls config w request auth deviceCodeResponse Ha Hg Hc), Hsched.
  rewrite engine_app, run_cons.
  destruct (outstanding (engine before)) as [|n] eqn:Hn; [congruence|].
  rewrite (reply_step config auth request deviceCodeResponse (startMilli w) _ n _ Hn).
  unfold afterPost.
  match goal with |- context [run closure ?t after] => set (s' := t) end.
  assert (Hcons : consistent s')
    by (subst s'; unfold consistent, settle; simpl; rewrite Hp; reflexivity).
  assert (Hs : isPending (promise s') = false) by (subst s'; simpl; rewrite Hp; reflexivity).
  destruct (terminal_final config auth request deviceCodeResponse (startMilli w)
              s' after Hcons Hs) as (Hprom & Hsent & Hact).
  simpl. rewrite Hprom, Hsent, Hact. subst s'. simpl. rewrite Hp. auto.
Qed.

(** X8: A reply that carries no error, arriving while the flow is polling,
    ends the flow as Succeeded with that body, and acquireToken returns
    the serialised body. *)
Theorem token_reply_is_returned (before after : list Event)
  (response : NetworkResponse ServerAuthorizationTokenResponse)
  (b : ServerAuthorizationTokenResponse) :
  createAuthority w (authority request) = inr auth →
  getDeviceCode config auth w request = inr deviceCodeResponse →
  deviceCodeCallback w deviceCodeResponse = None →
  schedule w = before ++ PostSettled (inr response) :: after →
  body response = Some b →
  error b = None →
  promise (engine before) = Pending →
  outstanding (engine before) ≠ O →
  flowState (promise (engine (schedule w))) = Succeeded (Some b)
  ∧ active (intervalId (engine (schedule w))) = false
  ∧ returned (acquireToken config w request) = Fulfilled (JSON_stringify (Some b)).
Proof.
  intros Ha Hg Hc Hsched Hb He Hp Ho.
  assert (Hnp : authorizationPending (body response) = false).
  { rewrite Hb. simpl. rewrite He. apply bool_decide_eq_false_2. discriminate. }
  destruct (reply_resolves config auth request deviceCodeResponse (startMilli w)
              before after response Hp Ho Hnp) as (Hprom & Hact & _).
  rewrite (acquireToken_polls config w request auth deviceCodeResponse Ha Hg Hc).
  rewrite Hsched, Hprom, Hact, Hb. simpl. auto.
Qed.

(** X9: A callback that throws aborts the flow: acquireToken is rejected with
    what the callback threw, nothing is logged and no token-endpoint
    request is ever sent, whatever the schedule. *)
Theorem callback_failure_aborts_without_polling (reason : AuthError) :
  createAuthority w (authority request) = inr auth →
  getDeviceCode config auth w request = inr deviceCodeResponse →
  deviceCodeCallback w deviceCodeResponse = Some reason →
  returned (acquireToken config w request) = Rejected reason
  ∧ List.filter isPostRequest (trace (acquireToken config w request)) = []
  ∧ console (acquireToken config w request) = [].
Proof.
  intros Ha Hg Hc. unfold acquireToken. rewrite Ha, Hg, Hc. simpl. auto.
Qed.

(** X10: A reply of the device-code endpoint that has no body makes the
    destructuring throw: getDeviceCode fails with a TypeError, and
    acquireToken is rejected with it after the GET, without calling the
    callback and without polling. *)
Theorem reply_without_body_is_a_type_error
  (response : NetworkResponse ServerDeviceCodeResponse) :
  createAuthority w (authority request) = inr auth →
  sendGetRequestAsync w (createDeviceCodeUrl config auth request) = inr response →
  body response = None →
  getDeviceCode config auth w request = inl TypeError
  ∧ returned (acquireToken config w request) = Rejected TypeError
  ∧ trace (acquireToken config w request) = [GetRequest (createDeviceCodeUrl config auth request)].
Proof.
  intros Ha Hsend Hb.
  assert (Hg : getDeviceCode config auth w request = inl TypeError).
  { unfold getDeviceCode, executeGetRequestToDeviceCodeEndpoint. rewrite Hsend, Hb. reflexivity. }
  unfold acquireToken. rewrite Ha, Hg. auto.
Qed.

End Flow.

Section Order.
Context `{Library}.

Variables (config : Configuration) (w : World) (request : DeviceCodeRequest).

(** X11: acquireToken never calls the callback without a device code, and never
    polls before the callback has returned: a callback in its trace was
    given the response getDeviceCode produced, and a POST in its trace
    means that the callback returned without throwing. *)
Theorem nothing_happens_out_of_order :
  (∀ response : DeviceCodeResponse,
     Callback response ∈ trace (acquireToken config w request) →
     ∃ auth : Authority,
       createAuthority w (authority request) = inr auth
       ∧ getDeviceCode config auth w request = inr response)
  ∧ (∀ e : Effect,
       e ∈ trace (acquireToken config w request) →
       isPostRequest e = true →
       ∃ (auth : Authority) (response : DeviceCodeResponse),
         createAuthority w (authority request) = inr auth
         ∧ getDeviceCode config auth w request = inr response
         ∧ deviceCodeCallback w response = None).
Proof.
  unfold acquireToken.
  destruct (createAuthority w (authority request)) as [reason|auth] eqn:Ha.
  { split; [intros response Hin|intros e Hin _]; simpl in Hin; inversion Hin. }
  destruct (getDeviceCode config auth w request) as [reason|dcr] eqn:Hg.
  { split; [intros response Hin|intros e Hin He]; simpl in Hin;
      apply list_elem_of_singleton in Hin; subst; discriminate. }
  assert (Hposts : ∀ (dcr' : DeviceCodeResponse) (polls : list Effect),
             forallb isPostRequest polls = true → Callback dcr' ∈ polls → False).
  { intros dcr' polls Hall Hin. rewrite forallb_forall in Hall.
    apply list_elem_of_In in Hin. apply Hall in Hin. discriminate. }
  destruct (deviceCodeCallback w dcr) as [reason|] eqn:Hc; simpl.
  - split.
    + intros response Hin. apply elem_of_cons in Hin as [Hin|Hin]; [discriminate|].
      apply list_elem_of_singleton in Hin. injection Hin as ->. eauto.
    + intros e Hin He. apply elem_of_cons in Hin as [->|Hin]; [discriminate|].
      apply list_elem_of_singleton in Hin. subst. discriminate.
  - split.
    + intros response Hin. apply elem_of_cons in Hin as [Hin|Hin]; [discriminate|].
      apply elem_of_cons in Hin as [Hin|Hin]; [injection Hin as ->; eauto|].
      exfalso. apply (Hposts response _ (engine_sends_posts config auth request dcr
                                            (startMilli w) (schedule w)) Hin).
    + intros e Hin He. eauto.
Qed.

End Order.

(** * Properties of the sample server *)

Section SampleServer.

Variable env : Sample.Environment.

(** X12: The plain-text file is the last resort: it is chosen exactly when the
    platform is none of win32, darwin and linux; and whichever backend is
    chosen stores the cache at the given path. *)
Theorem plain_text_is_the_last_resort (platform cachePath : string) :
  (Sample.createPersistence platform cachePath = Sample.FilePersistence cachePath
   ↔ platform ≠ "win32"%string ∧ platform ≠ "darwin"%string ∧ platform ≠ "linux"%string)
  ∧ Sample.fileLocationOf (Sample.createPersistence platform cachePath) = cachePath.
Proof.
  unfold Sample.createPersistence.
  repeat case_bool_decide; simpl; (split; [|reflexivity]);
    split; try discriminate; try tauto; intros (H1 & H2 & H3); congruence.
Qed.

(** X13: The server listens exactly when the persistence was created and the
    cache was read; it then listens on the port of the environment, or on
    3000 when that is unset or empty, and only after reading the cache. *)
Theorem server_listens_after_the_cache_is_read :
  ((∃ port : string + Z, Sample.Listen port ∈ Sample.main env)
   ↔ Sample.create env (Sample.createPersistence (Sample.platform env) (Sample.cachePath env)) = None
     ∧ Sample.readFromPersistence env = None)
  ∧ (∀ port : string + Z,
       Sample.Listen port ∈ Sample.main env →
       port = Sample.SERVER_PORT (Sample.envPort env)
       ∧ ∃ before after : list Sample.Action,
           Sample.main env = before ++ Sample.ReadFromPersistence :: after
           ∧ List.filter Sample.isListen before = []
           ∧ Sample.Listen port ∈ after)
  ∧ (Sample.SERVER_PORT (Sample.envPort env) = inr 3000
     ↔ Sample.envPort env = None ∨ Sample.envPort env = Some ""%string).
Proof.
  unfold Sample.main.
  destruct (Sample.create env _) as [reason|] eqn:Hc;
    [|destruct (Sample.readFromPersistence env) as [reason|] eqn:Hr]; simpl.
  - split; [split; [intros [port Hin]|intros [Hn _]; discriminate]|split].
    + apply list_elem_of_singleton in Hin. discriminate.
    + intros port Hin. apply list_elem_of_singleton in Hin. discriminate.
    + unfold Sample.SERVER_PORT. destruct (Sample.envPort env) as [p|]; [|tauto].
      case_bool_decide; subst; split; try tauto; try discriminate.
      intros [Hn|Hs]; congruence.
  - split; [split; [intros [port Hin]|intros [_ Hn]; discriminate]|split].
    + repeat (apply elem_of_cons in Hin as [Hin|Hin]; [discriminate|]). inversion Hin.
    + intros port Hin.
      repeat (apply elem_of_cons in Hin as [Hin|Hin]; [discriminate|]). inversion Hin.
    + unfold Sample.SERVER_PORT. destruct (Sample.envPort env) as [p|]; [|tauto].
      case_bool_decide; subst; split; try tauto; try discriminate.
      intros [Hn|Hs]; congruence.
  - split; [split; [intros _; auto|intros _]|split].
    + exists (Sample.SERVER_PORT (Sample.envPort env)).
      do 4 apply list_elem_of_further. apply list_elem_of_here.
    + intros port Hin.
      repeat (apply elem_of_cons in Hin as [Hin|Hin]; [try discriminate|]);
        [|inversion Hin].
      injection Hin as ->. split; [reflexivity|].
      eexists [_; _; _], _. split; [reflexivity|]. split; [reflexivity|].
      apply list_elem_of_here.
    + unfold Sample.SERVER_PORT. destruct (Sample.envPort env) as [p|]; [|tauto].
      case_bool_decide; subst; split; try tauto; try discriminate.
      intros [Hn|Hs]; congruence.
Qed.

(** X14: The redirect route answers 200 first exactly when the tokens were
    acquired, and 500 first exactly when they were not; the cache is
    written exactly when the tokens were acquired, and then only after the
    200 has been sent. *)
Theorem redirect_answers_before_it_saves (code : option string) :
  (head (Sample.statusesOf (Sample.getRedirect env code)) = Some 200
   ↔ ∃ response : string, Sample.acquireTokenByCode env code = inr response)
  ∧ (head (Sample.statusesOf (Sample.getRedirect env code)) = Some 500
     ↔ ∃ reason : string, Sample.acquireTokenByCode env code = inl reason)
  ∧ (Sample.WriteToPersistence ∈ Sample.getRedirect env code
     ↔ ∃ response : string, Sample.acquireTokenByCode env code = inr response)
  ∧ (Sample.WriteToPersistence ∈ Sample.getRedirect env code →
     ∃ before after : list Sample.Action,
       Sample.getRedirect env code
       = before ++ Sample.SendStatus 200 :: Sample.WriteToPersistence :: after
       ∧ Sample.statusesOf before = []).
Proof.
  unfold Sample.getRedirect.
  destruct (Sample.acquireTokenByCode env code) as [reason|response] eqn:Ha; simpl.
  - split; [split; [discriminate|intros [r Hr]; discriminate]|].
    split; [split; eauto|].
    assert (Hno : ¬ Sample.WriteToPersistence
                    ∈ [Sample.AcquireTokenByCode code;
                       Sample.ConsoleLog (Sample.ErrorText reason);
                       Sample.StatusSend 500 reason]).
    { intros Hin.
      repeat (apply elem_of_cons in Hin as [Hin|Hin]; [discriminate|]). inversion Hin. }
    split; [split; [intros Hin; contradiction|intros [r Hr]; discriminate]|].
    intros Hin. contradiction.
  - split; [split; eauto|].
    split; [split; [discriminate|intros [r Hr]; discriminate]|].
    split.
    + split; [eauto|]. intros _. do 3 apply list_elem_of_further. apply list_elem_of_here.
    + intros _. eexists [_; _], _. split; [reflexivity|reflexivity].
Qed.

(** X15: No rejection is swallowed by the redirect route: a failed token
    acquisition and a failed cache write are both logged and answered with
    500 and the reason; for a failed cache write that 500 comes when 200
    has been sent already. *)
Theorem redirect_reports_every_failure (code : option string) (reason : string) :
  Sample.acquireTokenByCode env code = inl reason
  ∨ ((∃ response : string, Sample.acquireTokenByCode env code = inr response)
     ∧ Sample.writeToPersistence env = Some reason) →
  Sample.ConsoleLog (Sample.ErrorText reason) ∈ Sample.getRedirect env code
  ∧ Sample.StatusSend 500 reason ∈ Sample.getRedirect env code
  ∧ (Sample.writeToPersistence env = Some reason →
     (∃ response : string, Sample.acquireTokenByCode env code = inr response) →
     Sample.statusesOf (Sample.getRedirect env code) = [200; 500]).
Proof.
  unfold Sample.getRedirect.
  intros [Ha|[[response Ha] Hw]]; rewrite Ha; simpl.
  - split; [do 1 apply list_elem_of_further; apply list_elem_of_here|].
    split; [do 2 apply list_elem_of_further; apply list_elem_of_here|].
    intros _ [r Hr]. congruence.
  - rewrite Hw. simpl.
    split; [do 4 apply list_elem_of_further; apply list_elem_of_here|].
    split; [do 5 apply list_elem_of_further; apply list_elem_of_here|].
    intros _ _. reflexivity.
Qed.

End SampleServer.

(** * The further properties on concrete flows *)

Section MoreSamples.

#[local] Existing Instance sampleLibrary.

Local Abbreviation sampleEngine :=
  (acquireTokenWithDeviceCode sampleConfig sampleAuthority sampleRequest sampleDeviceCode 0).
Local Abbreviation undatedEngine :=
  (acquireTokenWithDeviceCode sampleConfig sampleAuthority sampleRequest undatedDeviceCode 0).

(** Tokens that arrive after the request was cancelled are dropped. *)
Lemma terminal_state_is_final_witness :
  isPending (promise (sampleEngine [TimerDue 5000 false; TimerDue 10000 true])) = false
  ∧ promise (sampleEngine ([TimerDue 5000 false; TimerDue 10000 true]
                           ++ [tokenReply; TimerDue 15000 false]))
    = Rejected DeviceCodeCancelledError.
Proof.
  assert (Hs : isPending (promise (sampleEngine [TimerDue 5000 false; TimerDue 10000 true]))
               = false) by reflexivity.
  split; [exact Hs|].
  destruct (terminal_state_is_final sampleConfig sampleAuthority sampleRequest sampleDeviceCode 0
              [TimerDue 5000 false; TimerDue 10000 true] [tokenReply; TimerDue 15000 false]
              Hs) as (Hp & _).
  exact (eq_trans Hp eq_refl).
Defined.

(** A tick more than eleven days after the start still polls. *)
Lemma undefined_expiry_never_expires_witness :
  expiresIn undatedDeviceCode = None
  ∧ fires (intervalId (undatedEngine [])) 1000000000 = true
  ∧ flowState (promise (undatedEngine ([] ++ [TimerDue 1000000000 false]))) = Polling.
Proof.
  split; [reflexivity|]. split; [reflexivity|].
  destruct (undefined_expiry_never_expires sampleConfig sampleAuthority sampleRequest
              undatedDeviceCode 0 [] 1000000000 eq_refl eq_refl) as (_ & _ & Hp).
  exact Hp.
Defined.

(** The first POST is unanswered when the second tick comes: it polls
    again, and two POSTs are in flight. *)
Lemma tick_polls_while_a_post_is_outstanding_witness :
  fires (intervalId (sampleEngine [TimerDue 5000 false])) 10000 = true
  ∧ outstanding (sampleEngine [TimerDue 5000 false]) ≠ O
  ∧ outstanding (sampleEngine ([TimerDue 5000 false] ++ [TimerDue 10000 false])) = 2%nat.
Proof.
  assert (Hf : fires (intervalId (sampleEngine [TimerDue 5000 false])) 10000 = true)
    by reflexivity.
  assert (Hgt : jsGt (nowSeconds 10000)
                  (deviceCodeExpirationTime
                     (pollClosure sampleConfig sampleAuthority sampleRequest sampleDeviceCode 0))
                = false) by reflexivity.
  assert (Ho : outstanding (sampleEngine [TimerDue 5000 false]) ≠ O) by discriminate.
  split; [exact Hf|]. split; [exact Ho|].
  destruct (tick_polls_while_a_post_is_outstanding sampleConfig sampleAuthority sampleRequest
              sampleDeviceCode 0 [TimerDue 5000 false] 10000 Hf Hgt Ho) as (_ & Hout & _).
  exact (eq_trans Hout eq_refl).
Defined.

Lemma success_is_a_received_body_witness :
  promise (sampleEngine [TimerDue 5000 false; pendingReply; TimerDue 10000 false; tokenReply])
  = Fulfilled (Some tokenBody)
  ∧ authorizationPending (Some tokenBody) = false.
Proof.
  assert (Hr : promise (sampleEngine
                          [TimerDue 5000 false; pendingReply; TimerDue 10000 false; tokenReply])
               = Fulfilled (Some tokenBody)) by reflexivity.
  split; [exact Hr|].
  destruct (success_is_a_received_body sampleConfig sampleAuthority sampleRequest sampleDeviceCode 0
              [TimerDue 5000 false; pendingReply; TimerDue 10000 false; tokenReply]
              (Some tokenBody) Hr) as (Hnp & _).
  exact Hnp.
Defined.

Lemma polls_bounded_by_expiry_witness :
  interval sampleDeviceCode = Some 5
  ∧ expiresIn sampleDeviceCode = Some 16
  ∧ 0 < 5 ∧ 0 ≤ 16
  ∧ Z.of_nat (length (sent (sampleEngine patientSchedule))) ≤ 16 / 5.
Proof.
  split; [reflexivity|]. split; [reflexivity|]. split; [reflexivity|]. split; [discriminate|].
  apply (polls_bounded_by_expiry sampleConfig sampleAuthority sampleRequest sampleDeviceCode 0
           5 16 roundSeconds_monotone roundSeconds_whole_seconds eq_refl eq_refl);
    [reflexivity|discriminate].
Defined.

Lemma failed_poll_ends_the_flow_witness :
  promise (sampleEngine [TimerDue 5000 false]) = Pending
  ∧ outstanding (sampleEngine [TimerDue 5000 false]) ≠ O
  ∧ returned (acquireToken sampleConfig
                (worldWith sampleReply
                   [TimerDue 5000 false; PostSettled (inl (TransportError "ETIMEDOUT"));
                    TimerDue 10000 false])
                sampleRequest)
    = Rejected (TransportError "ETIMEDOUT").
Proof.
  assert (Hp : promise (sampleEngine [TimerDue 5000 false]) = Pending) by reflexivity.
  split; [exact Hp|]. split; [discriminate|].
  destruct (failed_poll_ends_the_flow sampleConfig
              (worldWith sampleReply
                 [TimerDue 5000 false; PostSettled (inl (TransportError "ETIMEDOUT"));
                  TimerDue 10000 false])
              sampleRequest sampleAuthority sampleDeviceCode
              [TimerDue 5000 false] [TimerDue 10000 false] (TransportError "ETIMEDOUT")
              eq_refl eq_refl eq_refl eq_refl Hp) as (_ & _ & _ & Hret);
    [discriminate|exact Hret].
Defined.

Lemma token_reply_is_returned_witness :
  error tokenBody = None
  ∧ returned (acquireToken sampleConfig
                (worldWith sampleReply [TimerDue 5000 false; tokenReply]) sampleRequest)
    = Fulfilled (JSON_stringify (Some tokenBody)).
Proof.
  assert (Hp : promise (sampleEngine [TimerDue 5000 false]) = Pending) by reflexivity.
  split; [reflexivity|].
  destruct (token_reply_is_returned sampleConfig
              (worldWith sampleReply [TimerDue 5000 false; tokenReply])
              sampleRequest sampleAuthority sampleDeviceCode
              [TimerDue 5000 false] [] {| body := Some tokenBody |} tokenBody
              eq_refl eq_refl eq_refl eq_refl eq_refl eq_refl Hp) as (_ & _ & Hret);
    [discriminate|exact Hret].
Defined.

Lemma callback_failure_aborts_without_polling_witness :
  deviceCodeCallback throwingWorld sampleDeviceCode = Some (CallbackError "cannot display the code")
  ∧ returned (acquireToken sampleConfig throwingWorld sampleRequest)
    = Rejected (CallbackError "cannot display the code").
Proof.
  split; [reflexivity|].
  destruct (callback_failure_aborts_without_polling sampleConfig throwingWorld sampleRequest
              sampleAuthority sampleDeviceCode (CallbackError "cannot display the code")
              eq_refl eq_refl eq_refl) as (Hret & _).
  exact Hret.
Defined.

Lemma reply_without_body_is_a_type_error_witness :
  body {| body := @None ServerDeviceCodeResponse |} = None
  ∧ returned (acquireToken sampleConfig bodylessWorld sampleRequest) = Rejected TypeError.
Proof.
  split; [reflexivity|].
  destruct (reply_without_body_is_a_type_error sampleConfig bodylessWorld sampleRequest
              sampleAuthority {| body := None |} eq_refl eq_refl eq_refl) as (_ & Hret & _).
  exact Hret.
Defined.

Lemma nothing_happens_out_of_order_witness :
  Callback sampleDeviceCode
  ∈ trace (acquireToken sampleConfig (worldWith sampleReply patientSchedule) sampleRequest)
  ∧ ∃ auth : Authority,
      createAuthority (worldWith sampleReply patientSchedule) (authority sampleRequest) = inr auth
      ∧ getDeviceCode sampleConfig auth (worldWith sampleReply patientSchedule) sampleRequest
        = inr sampleDeviceCode.
Proof.
  assert (Hin : Callback sampleDeviceCode
                ∈ trace (acquireToken sampleConfig (worldWith sampleReply patientSchedule)
                           sampleRequest)).
  { apply list_elem_of_further, list_elem_of_here. }
  split; [exact Hin|].
  exact (proj1 (nothing_happens_out_of_order sampleConfig (worldWith sampleReply patientSchedule)
                  sampleRequest) sampleDeviceCode Hin).
Defined.

Lemma plain_text_is_the_last_resort_witness :
  Sample.createPersistence "freebsd" "/srv/sample/cache.json"
  = Sample.FilePersistence "/srv/sample/cache.json".
Proof.
  apply (proj1 (plain_text_is_the_last_resort "freebsd" "/srv/sample/cache.json")).
  repeat split; discriminate.
Defined.

Lemma server_listens_after_the_cache_is_read_witness :
  Sample.Listen (inl "8080"%string) ∈ Sample.main Sample.readOnlyServer
  ∧ inl "8080"%string = Sample.SERVER_PORT (Sample.envPort Sample.readOnlyServer).
Proof.
  assert (Hin : Sample.Listen (inl "8080"%string) ∈ Sample.main Sample.readOnlyServer).
  { do 4 apply list_elem_of_further. apply list_elem_of_here. }
  split; [exact Hin|].
  destruct (server_listens_after_the_cache_is_read Sample.readOnlyServer) as (_ & Hport & _).
  destruct (Hport _ Hin) as (Heq & _). exact Heq.
Defined.

Lemma redirect_answers_before_it_saves_witness :
  Sample.acquireTokenByCode Sample.linuxServer (Some "code"%string) = inr "tokens"%string
  ∧ head (Sample.statusesOf (Sample.getRedirect Sample.linuxServer (Some "code"%string)))
    = Some 200.
Proof.
  split; [reflexivity|].
  destruct (redirect_answers_before_it_saves Sample.linuxServer (Some "code"%string))
    as (Hok & _).
  apply Hok. exists "tokens"%string. reflexivity.
Defined.

(** The cache cannot be written: the client has its 200 and the handler
    goes on to answer 500. *)
Lemma redirect_reports_every_failure_witness :
  Sample.writeToPersistence Sample.readOnlyServer = Some "EACCES"%string
  ∧ Sample.statusesOf (Sample.getRedirect Sample.readOnlyServer (Some "code"%string))
    = [200; 500].
Proof.
  split; [reflexivity|].
  destruct (redirect_reports_every_failure Sample.readOnlyServer (Some "code"%string) "EACCES")
    as (_ & _ & Hboth).
  - right. split; [exists "tokens"%string; reflexivity|reflexivity].
  - apply Hboth; [reflexivity|exists "tokens"%string; reflexivity].
Defined.

End MoreSamples.
